(** * Proxy Verifier client: replay orchestration engine

    A shallow embedding of [local/src/client/verifier-client.cc]: the
    replay-file handler ([ClientReplayFileHandler]), the session runner
    dispatch ([Run_Session]), the worker loop ([TF_Client]) and the
    scheduler ([Engine::command_run]), followed by the properties
    established about them.

    Conventions.
    - C++ integers are [Z] with their wrap-around written out
      ([Machine.wrap64] for [uint64_t], [Machine.wrap_int] for [int],
      [Machine.wrap_unsigned] for [unsigned]).
    - [float] and [double] are IEEE-754 binary32 and binary64, computed with
      the reference operations of [SpecFloat].
    - Global variables of the translation unit live in the record
      [Globals]; the members of a handler object in [ClientReplayFileHandler].
    - Functions of other translation units and libraries (YAML message
      loading, name localisation, number parsing, the protocol runners, the
      directory loader, the thread pool) are section variables or oracles. *)

From Stdlib Require Import ZArith List String Ascii Bool Lia Permutation Sorted.
From Stdlib Require Import QArith Qabs.
From Stdlib Require Import Floats.SpecFloat.
Import ListNotations.

Close Scope Q_scope.

Set Implicit Arguments.
Set Warnings "-register-all".
Open Scope Z_scope.

(* ================================================================== *)
(** * Machine arithmetic *)

Module Machine.

(** [uint64_t]: arithmetic modulo 2^64. *)
Definition wrap64 (z : Z) : Z := z mod 2 ^ 64.

(** [int] (32 bit, two's complement). *)
Definition wrap_int (z : Z) : Z := (z + 2 ^ 31) mod 2 ^ 32 - 2 ^ 31.

(** [unsigned] (32 bit). *)
Definition wrap_unsigned (z : Z) : Z := z mod 2 ^ 32.

(** IEEE-754 binary64 ([double]). *)
Definition f64_of_Z (z : Z) : spec_float := binary_normalize 53 1024 z 0 false.
Definition f64_mul : spec_float -> spec_float -> spec_float := SFmul 53 1024.
Definition f64_div : spec_float -> spec_float -> spec_float := SFdiv 53 1024.

(** Conversion [double] to [float] (binary32), rounding to nearest even. *)
Definition f32_of_f64 (x : spec_float) : spec_float :=
  match x with
  | S754_finite s m e =>
      binary_normalize 24 128 (if s then Z.neg m else Z.pos m) e s
  | _ => x
  end.


(** The literal [0.0]. *)
Definition f_zero : spec_float := S754_zero false.

(** The literal [1000000.0]. *)
Definition f64_1e6 : spec_float := f64_of_Z 1000000.

End Machine.

(* ================================================================== *)
(** * Text: [swoc::TextView] prefix tests and [atoi] *)

Module Text.

Definition is_upper (c : ascii) : bool :=
  let n := N_of_ascii c in (65 <=? n)%N && (n <=? 90)%N.

Definition tolower (c : ascii) : ascii :=
  if is_upper c then ascii_of_N (N_of_ascii c + 32) else c.

(** [TextView::starts_with_nocase]: [s] is at least as long as [prefix]
    and [strncasecmp(s, prefix, |prefix|) == 0]. *)
Fixpoint starts_with_nocase (s prefix : string) : bool :=
  match prefix with
  | EmptyString => true
  | String p prefix' =>
      match s with
      | EmptyString => false
      | String c s' =>
          Ascii.eqb (tolower c) (tolower p) && starts_with_nocase s' prefix'
      end
  end.

Definition is_space (c : ascii) : bool :=
  let n := N_of_ascii c in (n =? 32)%N || ((9 <=? n)%N && (n <=? 13)%N).

Definition digit_of (c : ascii) : option Z :=
  let n := N_of_ascii c in
  if (48 <=? n)%N && (n <=? 57)%N then Some (Z.of_N n - 48) else None.

Fixpoint skip_spaces (s : string) : string :=
  match s with
  | String c s' => if is_space c then skip_spaces s' else s
  | EmptyString => s
  end.

Fixpoint digits_value (acc : Z) (s : string) : Z :=
  match s with
  | String c s' =>
      match digit_of c with
      | Some d => digits_value (10 * acc + d) s'
      | None => acc
      end
  | EmptyString => acc
  end.

(** [atoi]: optional white space, optional sign, decimal digits; the value
    is an [int]. *)
Definition atoi (s : string) : Z :=
  match skip_spaces s with
  | String "-"%char s' => Machine.wrap_int (- digits_value 0 s')
  | String "+"%char s' => Machine.wrap_int (digits_value 0 s')
  | s' => Machine.wrap_int (digits_value 0 s')
  end.

End Text.

(* ================================================================== *)
(** * Diagnostics: [swoc::Errata] *)

Module Errata.

Inductive Severity : Type := S_DIAG | S_INFO | S_WARN | S_ERROR.

Definition level (s : Severity) : Z :=
  match s with S_DIAG => 0 | S_INFO => 1 | S_WARN => 2 | S_ERROR => 3 end.

(** One annotation: a severity and the message template. *)
Definition Annotation : Type := (Severity * string)%type.

(** An errata is the sequence of its annotations, oldest first. *)
Definition t : Type := list Annotation.

Definition empty : t := [].

Definition diag (e : t) (msg : string) : t := e ++ [(S_DIAG, msg)].
Definition info (e : t) (msg : string) : t := e ++ [(S_INFO, msg)].
Definition warn (e : t) (msg : string) : t := e ++ [(S_WARN, msg)].
Definition error (e : t) (msg : string) : t := e ++ [(S_ERROR, msg)].

(** [errata.note(other)]: merge the annotations of [other]. *)
Definition note (e other : t) : t := e ++ other.

(** The severity from which an errata counts as a failure. *)
Definition FAILURE_SEVERITY : Severity := S_WARN.

(** [is_ok]: no annotation at all, or none at a failure severity. *)
Definition is_ok (e : t) : bool :=
  forallb (fun a => level (fst a) <? level FAILURE_SEVERITY) e.

Definition has_error (e : t) : bool :=
  existsb (fun a => level (fst a) =? level S_ERROR) e.

End Errata.

(* ================================================================== *)
(** * Structured trace nodes ([YAML::Node]) *)

Inductive Node : Type :=
| Scalar (line : Z) (text : string)
| Sequence (line : Z) (items : list Node)
| Map (line : Z) (entries : list (string * Node))
| Null (line : Z).

(** [node.Mark().line] *)
Definition Mark_line (n : Node) : Z :=
  match n with
  | Scalar l _ | Sequence l _ | Map l _ | Null l => l
  end.

Fixpoint assoc (k : string) (entries : list (string * Node)) : option Node :=
  match entries with
  | [] => None
  | (k', v) :: rest => if String.eqb k k' then Some v else assoc k rest
  end.

(** [node[key]]: [None] stands for the undefined node, which converts to
    [false] in a condition. *)
Definition get (n : Node) (key : string) : option Node :=
  match n with
  | Map _ entries => assoc key entries
  | _ => None
  end.

Definition IsSequence (n : Node) : bool :=
  match n with Sequence _ _ => true | _ => false end.

Definition IsScalar (n : Node) : bool :=
  match n with Scalar _ _ => true | _ => false end.

(** [n.Scalar()]: the text of a scalar, the empty string otherwise. *)
Definition Scalar_text (n : Node) : string :=
  match n with Scalar _ s => s | _ => EmptyString end.

Definition items_of (n : Node) : list Node :=
  match n with Sequence _ l => l | _ => [] end.

(** Keys of the replay file format, declared in [core/ProxyVerifier.h]. *)
Definition YAML_SSN_PROTOCOL_KEY : string := "protocol".
Definition YAML_SSN_START_KEY : string := "connection-time".
Definition YAML_SSN_TLS_KEY : string := "tls".
Definition YAML_SSN_TLS_CLIENT_SNI_KEY : string := "client-sni".
Definition YAML_CLIENT_REQ_KEY : string := "client-request".
Definition YAML_PROXY_RSP_KEY : string := "proxy-response".

(* ================================================================== *)
(** * Data model: messages, transactions, sessions *)

(** Field rules ([HttpFields]): the rule names, merged by appending. *)
Definition HttpFields : Type := list string.

(** [HttpHeader]: the members the client touches; the remaining ones
    (method, URL, fields, body) are all derived from the node the message is
    loaded from and are kept here as that node. *)
Record HttpHeader : Type := mkHttpHeader {
  _fields_rules : HttpFields;
  _content_size : Z;
  _content : option Node
}.

Definition HttpHeader_new : HttpHeader := mkHttpHeader [] 0 None.

Definition set_fields_rules (h : HttpHeader) (r : HttpFields) : HttpHeader :=
  mkHttpHeader r (_content_size h) (_content h).

(** [Txn]: request, response, and the strict-verification flag given to the
    constructor. *)
Record Txn : Type := mkTxn {
  _req : HttpHeader;
  _rsp : HttpHeader;
  _verify_strictly : bool
}.

Definition Txn_new (strict : bool) : Txn :=
  mkTxn HttpHeader_new HttpHeader_new strict.

Definition set_req (t : Txn) (h : HttpHeader) : Txn :=
  mkTxn h (_rsp t) (_verify_strictly t).

Definition set_rsp (t : Txn) (h : HttpHeader) : Txn :=
  mkTxn (_req t) h (_verify_strictly t).

(** [Ssn]: a recorded session. [_start] is a [uint64_t], in microseconds. *)
Record Ssn : Type := mkSsn {
  _transactions : list Txn;
  _path : string;
  _line_no : Z;
  _start : Z;
  _client_sni : string;
  is_tls : bool;
  is_h2 : bool
}.

Definition Ssn_new : Ssn := mkSsn [] EmptyString 0 0 EmptyString false false.

Definition set_transactions (s : Ssn) (l : list Txn) : Ssn :=
  mkSsn l (_path s) (_line_no s) (_start s) (_client_sni s) (is_tls s) (is_h2 s).
Definition set_path (s : Ssn) (p : string) : Ssn :=
  mkSsn (_transactions s) p (_line_no s) (_start s) (_client_sni s) (is_tls s) (is_h2 s).
Definition set_line_no (s : Ssn) (l : Z) : Ssn :=
  mkSsn (_transactions s) (_path s) l (_start s) (_client_sni s) (is_tls s) (is_h2 s).
Definition set_start (s : Ssn) (t : Z) : Ssn :=
  mkSsn (_transactions s) (_path s) (_line_no s) t (_client_sni s) (is_tls s) (is_h2 s).
Definition set_client_sni (s : Ssn) (n : string) : Ssn :=
  mkSsn (_transactions s) (_path s) (_line_no s) (_start s) n (is_tls s) (is_h2 s).
Definition set_is_tls (s : Ssn) (b : bool) : Ssn :=
  mkSsn (_transactions s) (_path s) (_line_no s) (_start s) (_client_sni s) b (is_h2 s).
Definition set_is_h2 (s : Ssn) (b : bool) : Ssn :=
  mkSsn (_transactions s) (_path s) (_line_no s) (_start s) (_client_sni s) (is_tls s) b.

(** A resolved endpoint ([swoc::IPEndpoint]): address and port. *)
Definition IPEndpoint : Type := (Z * Z)%type.

(* ================================================================== *)
(** * Global state of the translation unit *)

(** [std::mutex]: [None] when free, [Some t] when held by thread [t]. *)
Definition Mutex : Type := option nat.

Record Globals : Type := mkGlobals {
  Use_Strict_Checking : bool;
  Keys_Whitelist : list string;
  LoadMutex : Mutex;
  Session_List : list Ssn;
  Target : list IPEndpoint;
  Target_Https : list IPEndpoint;
  Use_Proxy_Request_Directives : bool;
  (** [global_config.txn_rules] *)
  txn_rules : HttpFields
}.

(** The state at program start: the initialisers of the globals. *)
Definition Globals_init : Globals :=
  mkGlobals false [] None [] [] [] false [].

Definition set_LoadMutex (g : Globals) (m : Mutex) : Globals :=
  mkGlobals (Use_Strict_Checking g) (Keys_Whitelist g) m (Session_List g)
    (Target g) (Target_Https g) (Use_Proxy_Request_Directives g) (txn_rules g).

Definition set_Session_List (g : Globals) (l : list Ssn) : Globals :=
  mkGlobals (Use_Strict_Checking g) (Keys_Whitelist g) (LoadMutex g) l
    (Target g) (Target_Https g) (Use_Proxy_Request_Directives g) (txn_rules g).

(** What a call can come to besides returning: waiting for a mutex for
    ever, or behaviour the language leaves undefined. *)
Inductive Fault : Type :=
| Unlock_not_owner   (**r [unlock] of a mutex the thread does not hold *)
| Null_session       (**r dereference of a null [_ssn] *)
| Index_out_of_range (**r [deque::operator[]] past the end *).

Inductive Result (A : Type) : Type :=
| Ok (a : A)
| Blocked
| Undefined (f : Fault).

Arguments Blocked {A}.
Arguments Undefined {A} f.

Definition bind {A B : Type} (r : Result A) (k : A -> Result B) : Result B :=
  match r with
  | Ok a => k a
  | Blocked => Blocked
  | Undefined f => Undefined f
  end.

Notation "x <- r ;; k" := (bind r (fun x => k))
  (at level 61, r at next level, right associativity).

(** [m.lock()] by thread [me]: a held mutex blocks the caller. *)
Definition lock (me : nat) (m : Mutex) : Result Mutex :=
  match m with
  | None => Ok (Some me)
  | Some _ => Blocked
  end.

(** [m.unlock()] by thread [me]: defined only for the holder. *)
Definition unlock (me : nat) (m : Mutex) : Result Mutex :=
  match m with
  | Some o => if Nat.eqb o me then Ok None else Undefined Unlock_not_owner
  | None => Undefined Unlock_not_owner
  end.

(* ================================================================== *)
(** * The replay-file handler *)

Module Handler.

(** Members of [ClientReplayFileHandler]; [_path] is inherited from
    [ReplayFileHandler]. [_ssn] is the pointer to the session under
    construction, [None] for [nullptr]. *)
Record t : Type := mk {
  _ssn : option Ssn;
  _txn : Txn;
  _path : string
}.

End Handler.

Definition ClientReplayFileHandler : Type := Handler.t.

(** The constructor: [_txn{Use_Strict_Checking}], [_ssn = nullptr]. *)
Definition ClientReplayFileHandler_new (g : Globals) (path : string)
  : ClientReplayFileHandler :=
  Handler.mk None (Txn_new (Use_Strict_Checking g)) path.

Definition set_ssn (h : ClientReplayFileHandler) (s : option Ssn)
  : ClientReplayFileHandler :=
  Handler.mk s (Handler._txn h) (Handler._path h).

Definition set_txn (h : ClientReplayFileHandler) (t : Txn)
  : ClientReplayFileHandler :=
  Handler.mk (Handler._ssn h) t (Handler._path h).

Definition ssn_reset (h : ClientReplayFileHandler) : ClientReplayFileHandler :=
  set_ssn h None.

Definition txn_reset (g : Globals) (h : ClientReplayFileHandler)
  : ClientReplayFileHandler :=
  set_txn h (Txn_new (Use_Strict_Checking g)).

Definition TLS_PREFIX : string := "tls".
Definition H2_PREFIX : string := "h2".

Section Client.

(** [HttpHeader::localize_lower]: the lower-cased, interned name. *)
Variable localize_lower : string -> string.

(** [swoc::svtou]: the unsigned value of a numeric text, 0 when there is
    none. *)
Variable svtou : string -> Z.

(** [HttpHeader::load]: fills the header from a node and reports. *)
Variable load : HttpHeader -> Node -> Errata.t * HttpHeader.

(** [HttpHeader::make_key]: the key derived from a loaded request. *)
Variable make_key : HttpHeader -> string.

(** The block under the TLS match of [ssn_open]: read the SNI nested under
    the TLS section of the session node. *)
Definition ssn_open_sni (node : Node) (ssn : Ssn) (errata : Errata.t)
  : Ssn * Errata.t :=
  match get node YAML_SSN_TLS_KEY with
  | Some tls_node =>
      match get tls_node YAML_SSN_TLS_CLIENT_SNI_KEY with
      | Some client_sni_node =>
          if IsScalar client_sni_node then
            (set_client_sni ssn
               (localize_lower (Scalar_text client_sni_node)), errata)
          else
            (ssn, Errata.error errata
               "Session has a value for key client-sni that is not a scalar as required.")
      | None => (ssn, errata)
      end
  | None => (ssn, errata)
  end.

(** The loop over the protocol sequence of [ssn_open]: the session and
    errata after the entries [items], scanned in order. The TLS branch
    ends in [break], so it does not go on to the rest. *)
Fixpoint ssn_open_scan (node : Node) (items : list Node)
    (ssn : Ssn) (errata : Errata.t) : Ssn * Errata.t :=
  match items with
  | [] => (ssn, errata)
  | n :: rest =>
      let ssn :=
        if Text.starts_with_nocase (Scalar_text n) H2_PREFIX
        then set_is_h2 ssn true else ssn in
      if Text.starts_with_nocase (Scalar_text n) TLS_PREFIX then
        ssn_open_sni node (set_is_tls ssn true) errata
      else ssn_open_scan node rest ssn errata
  end.

Definition ssn_open (node : Node) (h : ClientReplayFileHandler)
  : Errata.t * ClientReplayFileHandler :=
  let errata := Errata.empty in
  let ssn := Ssn_new in
  let ssn := set_path ssn (Handler._path h) in
  let ssn := set_line_no ssn (Mark_line node) in
  let '(ssn, errata) :=
    match get node YAML_SSN_PROTOCOL_KEY with
    | Some proto_node =>
        if IsSequence proto_node then
          ssn_open_scan node (items_of proto_node) ssn errata
        else
          (ssn, Errata.warn errata
                  "Session has a value for protocol that is not a sequence.")
    | None => (ssn, Errata.info errata "Session has no protocol key.")
    end in
  let '(ssn, errata) :=
    match get node YAML_SSN_START_KEY with
    | Some start_node =>
        if IsScalar start_node then
          let t := svtou (Scalar_text start_node) in
          if negb (t =? 0) then (set_start ssn (t / 1000), errata)
          else (ssn, Errata.warn errata
                       "Session has a connection-time value that is not a positive integer.")
        else (ssn, Errata.warn errata
                     "Session has a connection-time key that is not a scalar.")
    | None => (ssn, errata)
    end in
  (errata, set_ssn h (Some ssn)).

Definition defined (o : option Node) : bool :=
  match o with Some _ => true | None => false end.

(** [txn_open]: on a validation failure it returns before [LoadMutex.lock()]. *)
Definition txn_open (me : nat) (node : Node) (g : Globals)
  : Result (Errata.t * Globals) :=
  let errata := Errata.empty in
  let errata :=
    if negb (defined (get node YAML_CLIENT_REQ_KEY))
    then Errata.error errata "Transaction node does not have a client request."
    else errata in
  let errata :=
    if negb (defined (get node YAML_PROXY_RSP_KEY))
    then Errata.error errata "Transaction node does not have a proxy response."
    else errata in
  if negb (Errata.is_ok errata) then Ok (errata, g)
  else
    m <- lock me (LoadMutex g) ;;
    Ok (Errata.empty, set_LoadMutex g m).

Definition client_request (node : Node) (g : Globals)
    (h : ClientReplayFileHandler) : Errata.t * ClientReplayFileHandler :=
  if negb (Use_Proxy_Request_Directives g) then
    let '(_, req) := load (_req (Handler._txn h)) node in
    (Errata.empty, set_txn h (set_req (Handler._txn h) req))
  else (Errata.empty, h).

Definition proxy_request (node : Node) (g : Globals)
    (h : ClientReplayFileHandler) : Errata.t * ClientReplayFileHandler :=
  if Use_Proxy_Request_Directives g then
    let '(result, req) := load (_req (Handler._txn h)) node in
    (result, set_txn h (set_req (Handler._txn h) req))
  else (Errata.empty, h).

Definition proxy_response (node : Node) (g : Globals)
    (h : ClientReplayFileHandler) : Errata.t * ClientReplayFileHandler :=
  if negb (Use_Proxy_Request_Directives g) then
    let rsp := set_fields_rules (_rsp (Handler._txn h)) (txn_rules g) in
    let '(result, rsp) := load rsp node in
    (result, set_txn h (set_rsp (Handler._txn h) rsp))
  else (Errata.empty, h).

Definition server_response (node : Node) (g : Globals)
    (h : ClientReplayFileHandler) : Errata.t * ClientReplayFileHandler :=
  if Use_Proxy_Request_Directives g then
    let rsp := set_fields_rules (_rsp (Handler._txn h)) (txn_rules g) in
    let '(result, rsp) := load rsp node in
    (result, set_txn h (set_rsp (Handler._txn h) rsp))
  else (Errata.empty, h).

Definition merge (rules all_headers : HttpFields) : HttpFields :=
  rules ++ all_headers.

Definition apply_to_all_messages (all_headers : HttpFields)
    (h : ClientReplayFileHandler) : Errata.t * ClientReplayFileHandler :=
  let t := Handler._txn h in
  let req := set_fields_rules (_req t) (merge (_fields_rules (_req t)) all_headers) in
  let rsp := set_fields_rules (_rsp t) (merge (_fields_rules (_rsp t)) all_headers) in
  (Errata.empty, set_txn h (mkTxn req rsp (_verify_strictly t))).

(** [Keys_Whitelist.count(key) > 0] *)
Definition whitelisted (keys : list string) (key : string) : bool :=
  existsb (String.eqb key) keys.

Definition is_empty {A : Type} (l : list A) : bool :=
  match l with [] => true | _ => false end.

(** [txn_close]: the unlock is unconditional. *)
Definition txn_close (me : nat) (g : Globals) (h : ClientReplayFileHandler)
  : Result (Errata.t * Globals * ClientReplayFileHandler) :=
  let key := make_key (_req (Handler._txn h)) in
  h <- (if is_empty (Keys_Whitelist g) || whitelisted (Keys_Whitelist g) key
        then
          match Handler._ssn h with
          | Some ssn =>
              Ok (set_ssn h (Some (set_transactions ssn
                                     (_transactions ssn ++ [Handler._txn h]))))
          | None => Undefined Null_session
          end
        else Ok h) ;;
  let h := txn_reset g h in
  m <- unlock me (LoadMutex g) ;;
  Ok (Errata.empty, set_LoadMutex g m, h).

(** [ssn_close]: the registry append happens under a [lock_guard] on
    [LoadMutex], released at the end of the block. *)
Definition ssn_close (me : nat) (g : Globals) (h : ClientReplayFileHandler)
  : Result (Errata.t * Globals * ClientReplayFileHandler) :=
  m <- lock me (LoadMutex g) ;;
  g <- match Handler._ssn h with
       | Some ssn =>
           if negb (is_empty (_transactions ssn))
           then Ok (set_Session_List g (Session_List g ++ [ssn]))
           else Ok g
       | None => Undefined Null_session
       end ;;
  m <- unlock me m ;;
  let g := set_LoadMutex g m in
  let h := ssn_reset h in
  Ok (Errata.empty, g, h).

(** ** The loader seen from the handler

    [Load_Replay_File] (in the core library) drives one handler per file;
    files are processed by several threads.  A load is therefore a sequence
    of handler calls, each made by one thread on its own handler.  A handler
    is touched by its own thread only, and the globals the calls share are
    [LoadMutex] and, under it, [Session_List]: a call is taken as one step,
    and a sequence lists the calls in the order in which they take
    effect. *)

Inductive Call : Type :=
| Call_ssn_open (node : Node)
| Call_txn_open (node : Node)
| Call_client_request (node : Node)
| Call_proxy_request (node : Node)
| Call_server_response (node : Node)
| Call_proxy_response (node : Node)
| Call_apply_to_all_messages (all_headers : HttpFields)
| Call_txn_close
| Call_ssn_close.

Definition handler_call (me : nat) (c : Call) (g : Globals)
    (h : ClientReplayFileHandler)
  : Result (Errata.t * Globals * ClientReplayFileHandler) :=
  match c with
  | Call_ssn_open node => let '(e, h) := ssn_open node h in Ok (e, g, h)
  | Call_txn_open node => r <- txn_open me node g ;; Ok (fst r, snd r, h)
  | Call_client_request node =>
      let '(e, h) := client_request node g h in Ok (e, g, h)
  | Call_proxy_request node =>
      let '(e, h) := proxy_request node g h in Ok (e, g, h)
  | Call_server_response node =>
      let '(e, h) := server_response node g h in Ok (e, g, h)
  | Call_proxy_response node =>
      let '(e, h) := proxy_response node g h in Ok (e, g, h)
  | Call_apply_to_all_messages all_headers =>
      let '(e, h) := apply_to_all_messages all_headers h in Ok (e, g, h)
  | Call_txn_close => txn_close me g h
  | Call_ssn_close => ssn_close me g h
  end.

(** The globals and the handler of every loader thread. *)
Record LoadState : Type := mkLoadState {
  globals : Globals;
  handlers : nat -> ClientReplayFileHandler
}.

Definition LoadState_init (g : Globals) (path_of : nat -> string) : LoadState :=
  mkLoadState g (fun i => ClientReplayFileHandler_new g (path_of i)).

Definition update_handler (hs : nat -> ClientReplayFileHandler) (i : nat)
    (h : ClientReplayFileHandler) : nat -> ClientReplayFileHandler :=
  fun j => if Nat.eqb j i then h else hs j.

Definition load_step (ev : nat * Call) (st : LoadState)
  : Result (Errata.t * LoadState) :=
  let '(me, c) := ev in
  r <- handler_call me c (globals st) (handlers st me) ;;
  let '(e, g, h) := r in
  Ok (e, mkLoadState g (update_handler (handlers st) me h)).

(** The calls of a load, in the order in which they take effect; the
    errata of the calls are merged. *)
Fixpoint load_calls (calls : list (nat * Call)) (st : LoadState)
  : Result (Errata.t * LoadState) :=
  match calls with
  | [] => Ok (Errata.empty, st)
  | ev :: rest =>
      r <- load_step ev st ;;
      r' <- load_calls rest (snd r) ;;
      Ok (Errata.note (fst r) (fst r'), snd r')
  end.

(* ================================================================== *)
(** * The session runner dispatch *)

(** The runner classes: [Session], [TLSSession] (with the SNI it is given)
    and [H2Session]. *)
Inductive SessionClass : Type :=
| Session
| TLSSession (client_sni : string)
| H2Session.

(** [Session::do_connect] and [Session::run_transactions] of the core
    library, by the class of the object they are called on. *)
Variable do_connect : SessionClass -> IPEndpoint -> Errata.t.
Variable run_transactions : SessionClass -> list Txn -> IPEndpoint -> Errata.t.

(** The calls made on the runner, in order. *)
Inductive RunnerCall : Type :=
| Connect (session : SessionClass) (real_target : IPEndpoint)
| RunTransactions (session : SessionClass) (txns : list Txn)
    (real_target : IPEndpoint).

Definition connect_and_run (errata : Errata.t) (session : SessionClass)
    (ssn : Ssn) (real_target : IPEndpoint) : Errata.t * list RunnerCall :=
  let errata := Errata.note errata (do_connect session real_target) in
  if Errata.is_ok errata then
    (Errata.note errata
       (run_transactions session (_transactions ssn) real_target),
     [Connect session real_target;
      RunTransactions session (_transactions ssn) real_target])
  else (errata, [Connect session real_target]).

Definition Run_Session (g : Globals) (ssn : Ssn)
    (target target_https : IPEndpoint) : Errata.t * list RunnerCall :=
  let errata := Errata.diag Errata.empty "Starting session." in
  if is_h2 ssn then
    if Use_Proxy_Request_Directives g then
      (Errata.diag errata "Ignoring HTTP/2 traffic in proxy mode.", [])
    else
      connect_and_run errata H2Session ssn target_https
  else if is_tls ssn then
    let errata := Errata.diag errata "Connecting via TLS." in
    connect_and_run errata (TLSSession (_client_sni ssn)) ssn target_https
  else
    let errata := Errata.diag errata "Connecting via HTTP." in
    connect_and_run errata Session ssn target.

(* ================================================================== *)
(** * The worker loop *)

(** What one iteration of the loop of [TF_Client] did: the session it was
    given, the two indices it used, and the result of [Run_Session]. *)
Record Ran : Type := mkRan {
  ran_ssn : Ssn;
  ran_target_index : Z;
  ran_target_https_index : Z;
  ran_result : Errata.t;
  ran_calls : list RunnerCall
}.

(** [deque[i]] *)
Definition at_index {A : Type} (l : list A) (i : Z) : Result A :=
  if i <? 0 then Undefined Index_out_of_range
  else match nth_error l (Z.to_nat i) with
       | Some a => Ok a
       | None => Undefined Index_out_of_range
       end.

(** [if (++index >= size) index = 0;] *)
Definition advance (index : Z) (size : nat) : Z :=
  let index := index + 1 in
  if index >=? Z.of_nat size then 0 else index.

(** The loop of [TF_Client] over the sessions [work] handed to this worker
    by [wait_for_work], in the order they arrive, until shutdown. *)
Fixpoint TF_Client_loop (g : Globals) (work : list Ssn)
    (target_index target_https_index : Z) : Result (list Ran) :=
  match work with
  | [] => Ok []
  | ssn :: rest =>
      target <- at_index (Target g) target_index ;;
      target_https <- at_index (Target_Https g) target_https_index ;;
      let '(result, calls) := Run_Session g ssn target target_https in
      let ran := mkRan ssn target_index target_https_index result calls in
      rans <- TF_Client_loop g rest
                (advance target_index (List.length (Target g)))
                (advance target_https_index (List.length (Target_Https g))) ;;
      Ok (ran :: rans)
  end.

(** [TF_Client]: both indices start at 0, in every worker thread. *)
Definition TF_Client (g : Globals) (work : list Ssn) : Result (list Ran) :=
  TF_Client_loop g work 0 0.

(* ================================================================== *)
(** * The engine: [Engine::command_run] *)

(** [bool session_start_compare(const Ssn *ssn1, const Ssn *ssn2)] *)
Definition session_start_compare (ssn1 ssn2 : Ssn) : bool :=
  _start ssn1 <? _start ssn2.

(** [std::list::sort(comp)] is a stable sort; its result is the stable
    insertion of every element, from the last to the first. *)
Fixpoint sort_insert {A : Type} (comp : A -> A -> bool) (x : A) (l : list A)
  : list A :=
  match l with
  | [] => [x]
  | y :: l' => if comp y x then y :: sort_insert comp x l' else x :: l
  end.

Definition list_sort {A : Type} (comp : A -> A -> bool) (l : list A) : list A :=
  fold_right (sort_insert comp) [] l.

(** [Session_List.front()->_start], guarded by [!Session_List.empty()]. *)
Definition front_start (sessions : list Ssn) : Z :=
  match sessions with
  | [] => 0
  | ssn :: _ => _start ssn
  end.

(** [Session_List.back()->_start] *)
Definition back_start (sessions : list Ssn) : Z :=
  _start (last sessions Ssn_new).

Definition max_content (max_content_length : Z) (txns : list Txn) : Z :=
  fold_left (fun m txn => Z.max m (_content_size (_req txn))) txns
    max_content_length.

(** The loop [for (auto *ssn : Session_List)] that shifts the start times
    and counts; [transaction_count] is an [int]. *)
Fixpoint adjust_loop (offset_time : Z) (sessions : list Ssn)
    (transaction_count max_content_length : Z) : list Ssn * Z * Z :=
  match sessions with
  | [] => ([], transaction_count, max_content_length)
  | ssn :: rest =>
      let ssn' := set_start ssn (Machine.wrap64 (_start ssn - offset_time)) in
      let transaction_count :=
        Machine.wrap_int
          (transaction_count + Z.of_nat (List.length (_transactions ssn))) in
      let max_content_length :=
        max_content max_content_length (_transactions ssn) in
      let '(rest', tc, mcl) :=
        adjust_loop offset_time rest transaction_count max_content_length in
      (ssn' :: rest', tc, mcl)
  end.

(** Sort the [Session_List] and adjust the time offsets. *)
Definition sort_and_adjust (sessions : list Ssn) : list Ssn * Z * Z :=
  let sorted := list_sort session_start_compare sessions in
  let offset_time := if negb (is_empty sorted) then front_start sorted else 0 in
  adjust_loop offset_time sorted 0 0.

(** The divisor [target * Session_List.back()->_start]: an [int] times a
    [uint64_t], computed in [uint64_t]. *)
Definition rate_divisor (target : Z) (sessions : list Ssn) : Z :=
  Machine.wrap64 (target * back_start sessions).

(** The [float rate_multiplier]: the division is made in [double] and the
    quotient converted to [float]. *)
Definition compute_rate_multiplier (rate_arg : list string)
    (sessions : list Ssn) (transaction_count : Z) : spec_float :=
  if Nat.eqb (List.length rate_arg) 1 && negb (is_empty sessions) then
    let target := Text.atoi (hd EmptyString rate_arg) in
    if target =? 0 then Machine.f_zero
    else
      Machine.f32_of_f64
        (Machine.f64_div
           (Machine.f64_mul (Machine.f64_of_Z transaction_count) Machine.f64_1e6)
           (Machine.f64_of_Z (rate_divisor target sessions)))
  else Machine.f_zero.

(** The command line as [ts::Arguments] gives it. *)
Record Args : Type := mkArgs {
  run_args : list string;
  no_proxy : bool;
  strict : bool;
  keys_arg : list string;
  rate_arg : list string;
  repeat_arg : list string;
  sleep_limit_arg : list string
}.

(** [resolve_ips] of the core library: the errata and the endpoints it
    appends. *)
Variable resolve_ips : string -> Errata.t * list IPEndpoint.

(** [Load_Replay_Directory] with the client's loader: its errata and the
    handler calls it makes, as they take effect; [file_path i] is the file of
    loader thread [i]. *)
Variable Load_Replay_Directory : string -> Errata.t * list (nat * Call).
Variable file_path : nat -> string.

(** [Client_Thread_Pool.get_worker()] cast to [ClientThreadInfo *], by the
    number of calls made before: the worker obtained, or [None] for
    [nullptr]. *)
Variable get_worker : nat -> option nat.

(** The state of the dispatch loops. [n_ssn] and [n_txn] are [unsigned]. *)
Record Dispatch : Type := mkDispatch {
  d_errata : Errata.t;
  n_ssn : Z;
  n_txn : Z;
  d_assigned : list (nat * Ssn);
  d_calls : nat
}.

(** The body of [for (auto *ssn : Session_List)] in the repeat loop.  The
    pacing ([GetUTimestamp], [usleep], [sleep_limit]) reads the clock and
    sleeps; it changes none of these values and is left out. *)
Definition dispatch_one (ssn : Ssn) (d : Dispatch) : Dispatch :=
  let thread_info := get_worker (d_calls d) in
  let '(errata, assigned) :=
    match thread_info with
    | None => (Errata.error (d_errata d) "Failed to get worker thread",
               d_assigned d)
    | Some w => (d_errata d, d_assigned d ++ [(w, ssn)])
    end in
  mkDispatch errata
    (Machine.wrap_unsigned (n_ssn d + 1))
    (Machine.wrap_unsigned (n_txn d + Z.of_nat (List.length (_transactions ssn))))
    assigned
    (S (d_calls d)).

Definition dispatch_sessions (sessions : list Ssn) (d : Dispatch) : Dispatch :=
  fold_left (fun d ssn => dispatch_one ssn d) sessions d.

(** [for (int i = 0; i < repeat_count; i++)] *)
Fixpoint repeat_loop (count : nat) (sessions : list Ssn) (d : Dispatch)
  : Dispatch :=
  match count with
  | O => d
  | S count' => repeat_loop count' sessions (dispatch_sessions sessions d)
  end.

(** What [command_run] leaves behind. *)
Record Outcome : Type := mkOutcome {
  status_code : Z;
  out_globals : Globals;
  out_errata : Errata.t;
  transaction_count : Z;
  max_content_length : Z;
  rate_multiplier : spec_float;
  out_n_ssn : Z;
  out_n_txn : Z;
  assigned : list (nat * Ssn);
  (** how many times [get_worker] was called *)
  worker_calls : nat
}.

(** An early [return] with [status_code = 1]. *)
Definition failed (g : Globals) (errata : Errata.t) : Outcome :=
  mkOutcome 1 g errata 0 0 Machine.f_zero 0 0 [] 0.

Definition command_run (arguments : Args) (g : Globals) : Result Outcome :=
  let args := run_args arguments in
  let errata := Errata.empty in
  if (List.length args <? 3)%nat then
    Ok (failed g (Errata.error errata "Not enough arguments for run command."))
  else
    let use_proxy_request_directives :=
      if no_proxy arguments then true else Use_Proxy_Request_Directives g in
    let use_strict_checking :=
      if strict arguments then true else Use_Strict_Checking g in
    let g := mkGlobals use_strict_checking (Keys_Whitelist g) (LoadMutex g)
               (Session_List g) (Target g) (Target_Https g)
               use_proxy_request_directives (txn_rules g) in
    let '(e, ips) := resolve_ips (nth 1 args EmptyString) in
    let errata := Errata.note errata e in
    let g := mkGlobals (Use_Strict_Checking g) (Keys_Whitelist g) (LoadMutex g)
               (Session_List g) (Target g ++ ips) (Target_Https g)
               (Use_Proxy_Request_Directives g) (txn_rules g) in
    if negb (Errata.is_ok errata) then Ok (failed g errata)
    else
      let '(e, ips) := resolve_ips (nth 2 args EmptyString) in
      let errata := Errata.note errata e in
      let g := mkGlobals (Use_Strict_Checking g) (Keys_Whitelist g) (LoadMutex g)
                 (Session_List g) (Target g) (Target_Https g ++ ips)
                 (Use_Proxy_Request_Directives g) (txn_rules g) in
      if negb (Errata.is_ok errata) then Ok (failed g errata)
      else
        let g := mkGlobals (Use_Strict_Checking g)
                   (Keys_Whitelist g ++ keys_arg arguments) (LoadMutex g)
                   (Session_List g) (Target g) (Target_Https g)
                   (Use_Proxy_Request_Directives g) (txn_rules g) in
        let errata := Errata.info errata "Loading directory." in
        let '(e, calls) := Load_Replay_Directory (nth 0 args EmptyString) in
        loaded <- load_calls calls (LoadState_init g file_path) ;;
        let g := globals (snd loaded) in
        let errata := Errata.note errata e in
        if negb (Errata.is_ok errata) then Ok (failed g errata)
        else
          let errata := Errata.diag errata "Initializing TLS" in
          let errata := Errata.diag errata "Initialize H2" in
          let '(sessions, transaction_count, max_content_length) :=
            sort_and_adjust (Session_List g) in
          let g := set_Session_List g sessions in
          let errata := Errata.info errata "Parsed transactions." in
          let rate_multiplier :=
            compute_rate_multiplier (rate_arg arguments) sessions
              transaction_count in
          let errata :=
            if Nat.eqb (List.length (rate_arg arguments)) 1
               && negb (is_empty sessions)
            then Errata.info errata "Rate multiplier." else errata in
          let repeat_count :=
            if Nat.eqb (List.length (repeat_arg arguments)) 1
            then Text.atoi (hd EmptyString (repeat_arg arguments)) else 1 in
          let d :=
            repeat_loop (Z.to_nat repeat_count) sessions
              (mkDispatch errata 0 0 [] 0) in
          let errata := Errata.info (d_errata d) "transactions in sessions." in
          Ok (mkOutcome 0 g errata transaction_count max_content_length
                rate_multiplier (n_ssn d) (n_txn d) (d_assigned d)
                (d_calls d)).

(* ================================================================== *)
(** * Notions used in the statements *)

(** The HTTP target indices used for the sessions that are neither HTTP/2
    nor TLS, in the order the worker ran them. *)
Definition plain_target_indices (rans : list Ran) : list Z :=
  map ran_target_index
    (filter (fun r => negb (is_h2 (ran_ssn r)) && negb (is_tls (ran_ssn r)))
       rans).

(** A float that is not a finite number: an infinity or a NaN. *)
Definition not_finite (x : spec_float) : bool :=
  match x with
  | S754_infinity _ | S754_nan => true
  | _ => false
  end.

(** The number of transactions of a batch. *)
Definition total_transactions (sessions : list Ssn) : Z :=
  fold_right (fun s n => Z.of_nat (List.length (_transactions s)) + n) 0
    sessions.

(** Every session of the registry has a transaction. *)
Definition registry_ok (g : Globals) : Prop :=
  Forall (fun s => _transactions s <> []) (Session_List g).

(** The entry matches the TLS prefix, or the HTTP/2 prefix. *)
Definition matches_tls (n : Node) : bool :=
  Text.starts_with_nocase (Scalar_text n) TLS_PREFIX.

Definition matches_h2 (n : Node) : bool :=
  Text.starts_with_nocase (Scalar_text n) H2_PREFIX.

(** The session once an HTTP/2 entry was or was not seen. *)
Definition mark_h2 (ssn : Ssn) (seen : bool) : Ssn :=
  if seen then set_is_h2 ssn true else ssn.

(** Ascending start times. *)
Definition start_le (a b : Ssn) : Prop := _start a <= _start b.

(** The session with [offset_time] taken off its start, in [Z]. *)
Definition shift_start (offset_time : Z) (s : Ssn) : Ssn :=
  set_start s (_start s - offset_time).

(** The index used for the session at position [k] of the work of a worker
    whose index stood at [index] before. *)
Definition index_at (index : Z) (size : nat) (k : nat) : Z :=
  (index + Z.of_nat k) mod Z.of_nat size.

(** How one session was run: with the endpoints at the two indices. *)
Definition ran_as_indexed (g : Globals) (r : Ran) : Prop :=
  exists target target_https : IPEndpoint,
    nth_error (Target g) (Z.to_nat (ran_target_index r)) = Some target /\
    nth_error (Target_Https g) (Z.to_nat (ran_target_https_index r))
    = Some target_https /\
    (ran_result r, ran_calls r)
    = Run_Session g (ran_ssn r) target target_https.

(** The repeat count [command_run] takes from the command line. *)
Definition repeat_count_of (arguments : Args) : Z :=
  if Nat.eqb (List.length (repeat_arg arguments)) 1
  then Text.atoi (hd EmptyString (repeat_arg arguments)) else 1.

(* ================================================================== *)
(** * Concrete inputs

    Stand-ins for the external functions and some small inputs, at which
    the properties below are evaluated. *)

(** A batch of two sessions of 50 transactions each, recorded 10 seconds
    apart. *)
Definition example_ssn (start : Z) (n : nat) : Ssn :=
  set_transactions (set_start Ssn_new start) (repeat (Txn_new false) n).

Definition example_batch : list Ssn :=
  [example_ssn 11000000 50; example_ssn 1000000 50].

Definition lower (s : string) : string :=
  string_of_list_ascii (map Text.tolower (list_ascii_of_string s)).

Definition decimal_value (s : string) : Z := Text.digits_value 0 s.

(** A loader that accepts map nodes and reports an error for the rest. *)
Definition load_map (h : HttpHeader) (n : Node) : Errata.t * HttpHeader :=
  match n with
  | Map _ _ => (Errata.empty, mkHttpHeader (_fields_rules h) 0 (Some n))
  | _ => (Errata.error Errata.empty "Message node is not a map.", h)
  end.

Definition key_of (h : HttpHeader) : string :=
  match _content h with
  | Some n => match get n "uuid" with
              | Some u => Scalar_text u
              | None => EmptyString
              end
  | None => EmptyString
  end.

Definition connect_ok (_ : SessionClass) (_ : IPEndpoint) : Errata.t :=
  Errata.empty.

Definition run_ok (_ : SessionClass) (_ : list Txn) (_ : IPEndpoint)
  : Errata.t := Errata.empty.

Definition resolve_one (_ : string) : Errata.t * list IPEndpoint :=
  (Errata.empty, [(2130706433, 8080)]).

Definition no_worker (_ : nat) : option nat := None.

Definition one_file (_ : nat) : string := "replay/one.yaml".

(** A session that declares ["h2", "tls"]. *)
Definition h2_tls_node : Node :=
  Map 7 [("protocol"%string,
          Sequence 7 [Scalar 7 "h2"; Scalar 7 "tls"])].

(** A session that declares ["tls", "h2"], with an SNI under its TLS
    section. *)
Definition tls_h2_node : Node :=
  Map 9 [("protocol"%string,
          Sequence 9 [Scalar 9 "tls"; Scalar 9 "h2"]);
         ("tls"%string,
          Map 10 [("client-sni"%string, Scalar 10 "Example.COM")])].

Definition ssn_node : Node :=
  Map 1 [("protocol"%string, Sequence 1 [Scalar 1 "http"]);
         ("connection-time"%string, Scalar 2 "1000000")].

Definition request_node : Node := Map 4 [("uuid"%string, Scalar 4 "1")].

Definition response_node : Node := Map 5 [].

Definition good_txn_node : Node :=
  Map 3 [("client-request"%string, request_node);
         ("proxy-response"%string, response_node)].

(** A transaction node without a proxy response. *)
Definition bad_txn_node : Node :=
  Map 6 [("client-request"%string, request_node)].

(** Thread 0 loads a session of one transaction, thread 1 a session
    without transactions. *)
Definition example_calls : list (nat * Call) :=
  [(0%nat, Call_ssn_open ssn_node);
   (0%nat, Call_txn_open good_txn_node);
   (0%nat, Call_client_request request_node);
   (0%nat, Call_proxy_response response_node);
   (0%nat, Call_txn_close);
   (0%nat, Call_ssn_close);
   (1%nat, Call_ssn_open ssn_node);
   (1%nat, Call_ssn_close)].

Definition load_example (_ : string) : Errata.t * list (nat * Call) :=
  (Errata.empty, example_calls).

(** Thread 0 opens a session and a transaction whose node fails the
    validation of [txn_open], and closes the transaction. *)
Definition failed_open_calls : list (nat * Call) :=
  [(0%nat, Call_ssn_open ssn_node);
   (0%nat, Call_txn_open bad_txn_node);
   (0%nat, Call_txn_close)].

(** The same while thread 1 is inside a transaction of its own. *)
Definition failed_open_calls_2 : list (nat * Call) :=
  [(1%nat, Call_ssn_open ssn_node);
   (1%nat, Call_txn_open good_txn_node);
   (0%nat, Call_ssn_open ssn_node);
   (0%nat, Call_txn_open bad_txn_node);
   (0%nat, Call_txn_close)].

(** Two HTTP targets and three HTTPS targets; a proxy is expected. *)
Definition two_three : Globals :=
  mkGlobals false [] None []
    [(1, 80); (2, 80)] [(1, 443); (2, 443); (3, 443)] false [].

(** The same without a proxy ([--no-proxy]). *)
Definition two_three_no_proxy : Globals :=
  mkGlobals false [] None []
    [(1, 80); (2, 80)] [(1, 443); (2, 443); (3, 443)] true [].

Definition plain_ssn : Ssn := example_ssn 0 1.
Definition tls_ssn : Ssn := set_is_tls (example_ssn 0 1) true.
Definition h2_ssn : Ssn := set_is_h2 (example_ssn 0 1) true.

(** Five plain sessions, and the same with a TLS session after each of the
    first four. *)
Definition five_plain : list Ssn :=
  [plain_ssn; plain_ssn; plain_ssn; plain_ssn; plain_ssn].

Definition interleaved : list Ssn :=
  [plain_ssn; tls_ssn; plain_ssn; tls_ssn; plain_ssn; tls_ssn; plain_ssn;
   tls_ssn; plain_ssn].

(** Two sessions recorded at the same time. *)
Definition same_start_batch : list Ssn :=
  [example_ssn 5000 1; example_ssn 5000 2].

(** A request node that is not a map. *)
Definition scalar_request_node : Node := Scalar 4 "GET /".

Definition run_arguments : Args :=
  mkArgs ["replay"%string; "127.0.0.1:8080"%string; "127.0.0.1:4443"%string]
    false false [] [] [] [].

(* ================================================================== *)
(** * Pacing: the scheduled time of a session

    The expressions of the dispatch loop of [command_run] that decide
    whether and how long the scheduler sleeps before a session. *)

(** Conversion of a [uint64_t] to [float], rounding to nearest even. *)
Definition f32_of_u64 (z : Z) : spec_float := binary_normalize 24 128 z 0 false.

(** Multiplication of two [float]. *)
Definition f32_mul : spec_float -> spec_float -> spec_float := SFmul 24 128.

(** [(uint64_t)x] for a [float x]: the value truncated toward zero; the
    conversion is defined only when the truncated value is a [uint64_t]. *)
Definition u64_of_f32 (x : spec_float) : option Z :=
  match x with
  | S754_zero _ => Some 0
  | S754_finite s m e =>
      let magnitude :=
        if 0 <=? e then Z.pos m * 2 ^ e else Z.pos m / 2 ^ (- e) in
      if s then (if magnitude =? 0 then Some 0 else None)
      else if magnitude <? 2 ^ 64 then Some magnitude else None
  | _ => None
  end.

(** [nexttime = (uint64_t)(rate_multiplier * ssn->_start) + firsttime]: the
    [uint64_t] start is converted to [float] for the product. *)
Definition nexttime (rate_multiplier : spec_float) (start firsttime : Z)
  : option Z :=
  match u64_of_f32 (f32_mul rate_multiplier (f32_of_u64 start)) with
  | Some offset => Some (Machine.wrap64 (offset + firsttime))
  | None => None
  end.

(** [if (nexttime > curtime) usleep(std::min(sleep_limit, nexttime - curtime))]:
    the argument [usleep] is called with (a 32 bit [useconds_t]), [None]
    when it is not called. *)
Definition usleep_argument (sleep_limit next curtime : Z) : option Z :=
  if next >? curtime
  then Some (Machine.wrap_unsigned
               (Z.min sleep_limit (Machine.wrap64 (next - curtime))))
  else None.

(** [uint64_t sleep_limit = 500000], replaced by [atoi] of the argument of
    [--sleep-limit] when there is one. *)
Definition sleep_limit_of (arguments : Args) : Z :=
  if Nat.eqb (List.length (sleep_limit_arg arguments)) 1
  then Machine.wrap64 (Text.atoi (hd EmptyString (sleep_limit_arg arguments)))
  else 500000.

(* ================================================================== *)
(** * Further notions used in the statements *)

(** A float that is a zero or a finite number. *)
Definition is_finite (x : spec_float) : bool :=
  match x with
  | S754_zero _ | S754_finite _ _ _ => true
  | _ => false
  end.

(** The [k]-th call of [get_worker] yields a worker. *)
Definition worker_ok (k : nat) : bool :=
  match get_worker k with Some _ => true | None => false end.

(** All transactions carry the strict-verification flag [b]. *)
Definition all_strict (b : bool) (txns : list Txn) : Prop :=
  Forall (fun t => _verify_strictly t = b) txns.

(** The flag [b] is the one of the transaction under construction of a
    handler and of every transaction of its session. *)
Definition strict_handler (b : bool) (h : ClientReplayFileHandler) : Prop :=
  _verify_strictly (Handler._txn h) = b /\
  (forall ssn : Ssn,
      Handler._ssn h = Some ssn -> all_strict b (_transactions ssn)).

(** The flag [b] is the one of the globals and of every transaction of the
    registry. *)
Definition strict_globals (b : bool) (g : Globals) : Prop :=
  Use_Strict_Checking g = b /\
  Forall (fun ssn => all_strict b (_transactions ssn)) (Session_List g).

Definition strict_everywhere (b : bool) (st : LoadState) : Prop :=
  strict_globals b (globals st) /\
  (forall i : nat, strict_handler b (handlers st i)).

(** The sessions recorded at [start], in list order. *)
Definition recorded_at (start : Z) (sessions : list Ssn) : list Ssn :=
  filter (fun s => _start s =? start) sessions.

(** The classification [Run_Session] makes of a session: its runner class
    and which of the two targets it uses. *)
Definition runner_of (ssn : Ssn) : SessionClass :=
  if is_h2 ssn then H2Session
  else if is_tls ssn then TLSSession (_client_sni ssn)
  else Session.

Definition real_target_of (ssn : Ssn) (target target_https : IPEndpoint)
  : IPEndpoint :=
  if is_h2 ssn || is_tls ssn then target_https else target.

(** The annotations the start-time block of [ssn_open] can add. *)
Definition start_not_positive : Errata.Annotation :=
  (Errata.S_WARN,
   "Session has a connection-time value that is not a positive integer."%string).

Definition start_not_scalar : Errata.Annotation :=
  (Errata.S_WARN,
   "Session has a connection-time key that is not a scalar."%string).

(** What the protocol block of [ssn_open] can add to the errata. *)
Definition from_protocol_block (a : Errata.Annotation) : Prop :=
  fst a = Errata.S_ERROR \/ fst a = Errata.S_INFO \/
  a = (Errata.S_WARN,
       "Session has a value for protocol that is not a sequence."%string).

(** The number of [ssn_close] calls of a load. *)
Definition closes (calls : list (nat * Call)) : nat :=
  List.length
    (filter (fun ev => match snd ev with Call_ssn_close => true | _ => false end)
       calls).

(** The state the dispatch loops of [command_run] start from. *)
Definition dispatch_start (errata : Errata.t) : Dispatch :=
  mkDispatch errata 0 0 [] 0.

(** The globals [command_run] works with once the command line is taken
    in: the flags, the keys and the resolved targets. *)
Definition configured (arguments : Args) (g : Globals) : Globals :=
  mkGlobals
    (strict arguments || Use_Strict_Checking g)
    (Keys_Whitelist g ++ keys_arg arguments)
    (LoadMutex g)
    (Session_List g)
    (Target g ++ snd (resolve_ips (nth 1 (run_args arguments) EmptyString)))
    (Target_Https g
       ++ snd (resolve_ips (nth 2 (run_args arguments) EmptyString)))
    (no_proxy arguments || Use_Proxy_Request_Directives g)
    (txn_rules g).

(** [g'] is [g] but for the load lock and the registry. *)
Definition same_configuration (g g' : Globals) : Prop :=
  g' = set_Session_List (set_LoadMutex g (LoadMutex g')) (Session_List g').

(* ================================================================== *)
(** * Further concrete inputs *)

(** A pool that always has a worker: the [k]-th call yields worker [k]. *)
Definition next_worker (k : nat) : option nat := Some k.

(** A directory whose load makes no handler call. *)
Definition load_nothing (_ : string) : Errata.t * list (nat * Call) :=
  (Errata.empty, []).

(** The arguments of a run with [--repeat 0]. *)
Definition repeat_zero_arguments : Args :=
  mkArgs ["replay"%string; "127.0.0.1:8080"%string; "127.0.0.1:4443"%string]
    false false [] [] ["0"%string] [].

(** Globals with a key list, while thread 0 holds the load lock. *)
Definition locked_with_keys : Globals :=
  mkGlobals false ["1"%string] (Some 0%nat) [] [] [] false [].

(** A handler with a session of one transaction and a request loaded from
    [request_node], whose key is ["1"]. *)
Definition loaded_handler : ClientReplayFileHandler :=
  Handler.mk (Some plain_ssn)
    (set_req (Txn_new false) (mkHttpHeader [] 0 (Some request_node)))
    "replay/one.yaml".

(* ================================================================== *)
(** * Properties: sorting and normalisation *)

(** A call that returned: take its result apart. *)
Ltac returned :=
  let H := fresh "Hret" in
  intros H; inversion H; subst; clear H.

Lemma sort_insert_perm (A : Type) (comp : A -> A -> bool) (x : A) (l : list A) :
  Permutation (sort_insert comp x l) (x :: l).
Proof.
  induction l as [|y l IH]; simpl.
  - apply Permutation_refl.
  - destruct (comp y x).
    + apply perm_trans with (y :: x :: l).
      * apply perm_skip, IH.
      * apply perm_swap.
    + apply Permutation_refl.
Qed.

Lemma list_sort_perm (A : Type) (comp : A -> A -> bool) (l : list A) :
  Permutation (list_sort comp l) l.
Proof.
  induction l as [|x l IH]; simpl.
  - constructor.
  - eapply perm_trans; [apply sort_insert_perm|].
    apply perm_skip, IH.
Qed.

Lemma sort_insert_sorted (x : Ssn) (l : list Ssn) :
  StronglySorted start_le l ->
  StronglySorted start_le (sort_insert session_start_compare x l).
Proof.
  induction 1 as [|y l Hl IH Hy]; simpl.
  - repeat constructor.
  - unfold session_start_compare at 1.
    destruct (_start y <? _start x) eqn:E.
    + apply Z.ltb_lt in E. constructor; [exact IH|].
      apply (Permutation_Forall (Permutation_sym (sort_insert_perm _ x l))).
      constructor; [unfold start_le; lia | exact Hy].
    + apply Z.ltb_ge in E. constructor.
      * constructor; assumption.
      * constructor; [exact E|].
        eapply Forall_impl; [|exact Hy].
        unfold start_le. intros a Ha. lia.
Qed.

Lemma list_sort_sorted (l : list Ssn) :
  StronglySorted start_le (list_sort session_start_compare l).
Proof.
  induction l as [|x l IH]; simpl.
  - constructor.
  - apply sort_insert_sorted, IH.
Qed.

Lemma adjust_loop_sessions (offset_time : Z) (l : list Ssn) (tc mcl : Z) :
  fst (fst (adjust_loop offset_time l tc mcl))
  = map (fun s => set_start s (Machine.wrap64 (_start s - offset_time))) l.
Proof.
  revert tc mcl. induction l as [|s l IH]; intros tc mcl; simpl.
  - reflexivity.
  - specialize (IH
      (Machine.wrap_int (tc + Z.of_nat (List.length (_transactions s))))
      (max_content mcl (_transactions s))).
    destruct (adjust_loop offset_time l _ _) as [[rest' tc'] mcl'].
    simpl in *. now rewrite IH.
Qed.

Lemma wrap64_small (z : Z) : 0 <= z < 2 ^ 64 -> Machine.wrap64 z = z.
Proof. intros H. unfold Machine.wrap64. now apply Z.mod_small. Qed.

Lemma list_sort_nonempty (A : Type) (comp : A -> A -> bool) (l : list A) :
  l <> [] -> list_sort comp l <> [].
Proof.
  intros Hl Hs. apply Hl.
  apply Permutation_nil. rewrite <- Hs.
  apply list_sort_perm.
Qed.

(** The sessions after [sort_and_adjust]: the sorted ones, each shifted by
    the start of the first, with no wrap-around. *)
Lemma sort_and_adjust_sessions (sessions : list Ssn) :
  Forall (fun s => 0 <= _start s < 2 ^ 64) sessions ->
  fst (fst (sort_and_adjust sessions))
  = map (shift_start (front_start (list_sort session_start_compare sessions)))
      (list_sort session_start_compare sessions).
Proof.
  intros Hrange. unfold sort_and_adjust.
  rewrite adjust_loop_sessions.
  pose proof (list_sort_sorted sessions) as Hs.
  pose proof (Permutation_Forall
                (Permutation_sym (list_sort_perm session_start_compare sessions))
                Hrange) as Hr.
  destruct (list_sort session_start_compare sessions) as [|s0 rest]; simpl.
  - reflexivity.
  - inversion Hs as [|? ? Hrest Hall]; subst.
    inversion Hr as [|? ? H0 Hrr]; subst.
    unfold shift_start at 1. f_equal.
    + f_equal. apply wrap64_small. lia.
    + apply map_ext_in. intros a Ha. unfold shift_start. f_equal.
      apply wrap64_small.
      rewrite Forall_forall in Hall, Hrr.
      specialize (Hall a Ha). specialize (Hrr a Ha).
      unfold start_le in Hall. lia.
Qed.

Lemma front_start_least (l : list Ssn) :
  StronglySorted start_le l ->
  Forall (fun s => front_start l <= _start s) l.
Proof.
  intros Hs. destruct l as [|s0 rest]; simpl.
  - constructor.
  - inversion Hs as [|? ? _ Hall]; subst.
    constructor; [lia | exact Hall].
Qed.

Lemma front_start_in (l : list Ssn) :
  l <> [] -> In (front_start l) (map _start l).
Proof.
  destruct l as [|s0 rest]; [congruence | intros _; simpl; now left].
Qed.

Lemma shift_sorted (offset_time : Z) (l : list Ssn) :
  StronglySorted start_le l ->
  StronglySorted start_le (map (shift_start offset_time) l).
Proof.
  induction 1 as [|y l Hl IH Hy]; simpl; constructor.
  - exact IH.
  - rewrite Forall_map. eapply Forall_impl; [|exact Hy].
    unfold start_le, shift_start. simpl. intros a Ha. lia.
Qed.

(** C8. After loading, for a non-empty registry, [command_run] sorts the
    sessions by start time, ascending, and subtracts the earliest start time
    from the start time of every session: the result is the registry with
    every start shifted by the earliest one, in ascending order, its first
    start is 0, no start is below 0 and one is exactly 0. *)
Theorem normalized_min_start_is_zero (sessions : list Ssn) :
  sessions <> [] ->
  Forall (fun s => 0 <= _start s < 2 ^ 64) sessions ->
  exists earliest : Z,
    In earliest (map _start sessions) /\
    Forall (fun s => earliest <= _start s) sessions /\
    let adjusted := fst (fst (sort_and_adjust sessions)) in
    Permutation adjusted (map (shift_start earliest) sessions) /\
    StronglySorted start_le adjusted /\
    front_start adjusted = 0 /\
    Forall (fun s => 0 <= _start s) adjusted /\
    Exists (fun s => _start s = 0) adjusted.
Proof.
  intros Hne Hrange.
  pose proof (list_sort_perm session_start_compare sessions) as Hperm.
  pose proof (list_sort_sorted sessions) as Hsorted.
  pose proof (list_sort_nonempty session_start_compare Hne) as Hne'.
  exists (front_start (list_sort session_start_compare sessions)).
  split; [|split].
  - apply (Permutation_in _ (Permutation_map _start Hperm)).
    now apply front_start_in.
  - apply (Permutation_Forall Hperm). now apply front_start_least.
  - cbv zeta. rewrite (sort_and_adjust_sessions Hrange).
    pose proof (front_start_least Hsorted) as Hleast.
    split; [|split; [|split; [|split]]].
    + now apply Permutation_map.
    + now apply shift_sorted.
    + destruct (list_sort session_start_compare sessions) as [|s0 rest];
        [congruence | simpl; lia].
    + rewrite Forall_map. eapply Forall_impl; [|exact Hleast].
      unfold shift_start. simpl. intros a Ha. lia.
    + destruct (list_sort session_start_compare sessions) as [|s0 rest];
        [congruence|].
      simpl. apply Exists_cons_hd. simpl. lia.
Qed.

(* ================================================================== *)
(** * Properties: the rate multiplier *)

Lemma wrap_int_add_l (a b : Z) :
  Machine.wrap_int (Machine.wrap_int a + b) = Machine.wrap_int (a + b).
Proof.
  unfold Machine.wrap_int.
  replace ((a + 2 ^ 31) mod 2 ^ 32 - 2 ^ 31 + b + 2 ^ 31)
    with ((a + 2 ^ 31) mod 2 ^ 32 + b) by lia.
  rewrite Zplus_mod_idemp_l. f_equal. f_equal. lia.
Qed.

Lemma wrap_int_idem (a : Z) :
  Machine.wrap_int (Machine.wrap_int a) = Machine.wrap_int a.
Proof.
  rewrite <- (Z.add_0_r (Machine.wrap_int a)) at 1.
  rewrite wrap_int_add_l. now rewrite Z.add_0_r.
Qed.

Lemma adjust_loop_count (offset_time : Z) (l : list Ssn) (tc mcl : Z) :
  Machine.wrap_int tc = tc ->
  snd (fst (adjust_loop offset_time l tc mcl))
  = Machine.wrap_int (tc + total_transactions l).
Proof.
  revert tc mcl. induction l as [|s l IH]; intros tc mcl Htc.
  - cbn. now rewrite Z.add_0_r.
  - cbn [adjust_loop total_transactions fold_right].
    fold (total_transactions l).
    specialize (IH
      (Machine.wrap_int (tc + Z.of_nat (List.length (_transactions s))))
      (max_content mcl (_transactions s))).
    destruct (adjust_loop offset_time l _ _) as [[rest' tc'] mcl'].
    cbn [fst snd] in *. rewrite IH.
    + rewrite wrap_int_add_l. f_equal. lia.
    + apply wrap_int_idem.
Qed.

Lemma total_transactions_perm (l l' : list Ssn) :
  Permutation l l' -> total_transactions l = total_transactions l'.
Proof.
  induction 1; simpl; lia.
Qed.

Lemma sort_and_adjust_count (sessions : list Ssn) :
  snd (fst (sort_and_adjust sessions))
  = Machine.wrap_int (total_transactions sessions).
Proof.
  unfold sort_and_adjust. rewrite adjust_loop_count by reflexivity.
  simpl. f_equal. apply total_transactions_perm, list_sort_perm.
Qed.

Lemma back_start_greatest (l : list Ssn) :
  StronglySorted start_le l ->
  Forall (fun s => _start s <= back_start l) l.
Proof.
  unfold back_start.
  induction 1 as [|y l Hl IH Hy].
  - constructor.
  - destruct l as [|z l'].
    + constructor; [simpl; lia | constructor].
    + change (last (y :: z :: l') Ssn_new) with (last (z :: l') Ssn_new).
      constructor; [|exact IH].
      inversion Hy as [|? ? Hyz _]; subst.
      inversion IH as [|? ? Hz _]; subst.
      unfold start_le in Hyz. lia.
Qed.

Lemma back_start_in (l : list Ssn) :
  l <> [] -> In (back_start l) (map _start l).
Proof.
  unfold back_start.
  induction l as [|y l IH]; [congruence|]. intros _.
  destruct l as [|z l'].
  - simpl. now left.
  - change (last (y :: z :: l') Ssn_new) with (last (z :: l') Ssn_new).
    right. apply IH. discriminate.
Qed.

Lemma back_start_shift (offset_time : Z) (l : list Ssn) :
  l <> [] ->
  back_start (map (shift_start offset_time) l) = back_start l - offset_time.
Proof.
  unfold back_start.
  induction l as [|y l IH]; [congruence|]. intros _.
  destruct l as [|z l'].
  - reflexivity.
  - change (last (map (shift_start offset_time) (y :: z :: l')) Ssn_new)
      with (last (map (shift_start offset_time) (z :: l')) Ssn_new).
    change (last (y :: z :: l') Ssn_new) with (last (z :: l') Ssn_new).
    apply IH. discriminate.
Qed.

(** The normalised start of the last sorted session is the distance between
    the latest and the earliest recorded start. *)
Lemma back_start_adjusted (sessions : list Ssn) :
  sessions <> [] ->
  Forall (fun s => 0 <= _start s < 2 ^ 64) sessions ->
  exists earliest latest : Z,
    In earliest (map _start sessions) /\
    In latest (map _start sessions) /\
    Forall (fun s => earliest <= _start s <= latest) sessions /\
    back_start (fst (fst (sort_and_adjust sessions))) = latest - earliest.
Proof.
  intros Hne Hrange.
  pose proof (list_sort_perm session_start_compare sessions) as Hperm.
  pose proof (list_sort_sorted sessions) as Hsorted.
  pose proof (list_sort_nonempty session_start_compare Hne) as Hne'.
  exists (front_start (list_sort session_start_compare sessions)),
         (back_start (list_sort session_start_compare sessions)).
  repeat split.
  - apply (Permutation_in _ (Permutation_map _start Hperm)).
    now apply front_start_in.
  - apply (Permutation_in _ (Permutation_map _start Hperm)).
    now apply back_start_in.
  - apply (Permutation_Forall Hperm).
    pose proof (front_start_least Hsorted) as H1.
    pose proof (back_start_greatest Hsorted) as H2.
    rewrite Forall_forall in *. intros s Hs.
    specialize (H1 s Hs). specialize (H2 s Hs). lia.
  - rewrite (sort_and_adjust_sessions Hrange).
    now apply back_start_shift.
Qed.

Lemma sort_and_adjust_nonempty (sessions : list Ssn) :
  sessions <> [] -> is_empty (fst (fst (sort_and_adjust sessions))) = false.
Proof.
  intros Hne. unfold sort_and_adjust. rewrite adjust_loop_sessions.
  pose proof (list_sort_nonempty session_start_compare Hne) as Hne'.
  destruct (list_sort session_start_compare sessions); [congruence|reflexivity].
Qed.

Lemma div_by_zero_not_finite (x : spec_float) :
  not_finite (Machine.f32_of_f64 (Machine.f64_div x (Machine.f64_of_Z 0))) = true.
Proof.
  destruct x; reflexivity.
Qed.


(** C10. With a nonzero target rate and a non-empty batch whose sessions
    all have the same recorded start, the normalised start of the last
    sorted session is 0, so the divisor [target * back()->_start] is 0; the
    division is made all the same and the multiplier is not a finite
    number. *)
Theorem rate_divisor_zero_unguarded (r : string) (sessions : list Ssn)
    (recorded : Z) :
  sessions <> [] ->
  0 <= recorded < 2 ^ 64 ->
  Forall (fun s => _start s = recorded) sessions ->
  Text.atoi r <> 0 ->
  let sorted := fst (fst (sort_and_adjust sessions)) in
  let transaction_count := snd (fst (sort_and_adjust sessions)) in
  back_start sorted = 0 /\
  rate_divisor (Text.atoi r) sorted = 0 /\
  compute_rate_multiplier [r] sorted transaction_count
  = Machine.f32_of_f64
      (Machine.f64_div
         (Machine.f64_mul (Machine.f64_of_Z transaction_count)
            Machine.f64_1e6)
         (Machine.f64_of_Z 0)) /\
  not_finite (compute_rate_multiplier [r] sorted transaction_count) = true.
Proof.
  intros Hne Hrec Hsame Hrate. cbv zeta.
  assert (Hrange : Forall (fun s => 0 <= _start s < 2 ^ 64) sessions).
  { eapply Forall_impl; [|exact Hsame]. cbv beta. intros s ->. exact Hrec. }
  pose proof (sort_and_adjust_nonempty Hne) as Hnonempty.
  destruct (back_start_adjusted Hne Hrange)
    as (earliest & latest & Hin1 & Hin2 & _ & Hspan).
  assert (Hback : back_start (fst (fst (sort_and_adjust sessions))) = 0).
  { rewrite Hspan.
    apply in_map_iff in Hin1. destruct Hin1 as (s1 & <- & Hs1).
    apply in_map_iff in Hin2. destruct Hin2 as (s2 & <- & Hs2).
    rewrite Forall_forall in Hsame.
    rewrite (Hsame s1 Hs1), (Hsame s2 Hs2). lia. }
  assert (Hdiv : rate_divisor (Text.atoi r)
                   (fst (fst (sort_and_adjust sessions))) = 0).
  { unfold rate_divisor. rewrite Hback, Z.mul_0_r. reflexivity. }
  assert (Hrm : compute_rate_multiplier [r] (fst (fst (sort_and_adjust sessions)))
                  (snd (fst (sort_and_adjust sessions)))
                = Machine.f32_of_f64
                    (Machine.f64_div
                       (Machine.f64_mul
                          (Machine.f64_of_Z (snd (fst (sort_and_adjust sessions))))
                          Machine.f64_1e6)
                       (Machine.f64_of_Z 0))).
  { unfold compute_rate_multiplier. rewrite Hnonempty.
    cbn [List.length Nat.eqb andb negb hd].
    apply Z.eqb_neq in Hrate. rewrite Hrate. now rewrite Hdiv. }
  repeat split; try assumption.
  rewrite Hrm. apply div_by_zero_not_finite.
Qed.

(* ================================================================== *)
(** * Properties: the protocol scan of [ssn_open] *)

Lemma tls_is_not_h2 (n : Node) : matches_tls n = true -> matches_h2 n = false.
Proof.
  unfold matches_tls, matches_h2, TLS_PREFIX, H2_PREFIX.
  destruct (Scalar_text n) as [|c s]; simpl; [discriminate|].
  intros H. apply andb_true_iff in H. destruct H as [H _].
  apply Ascii.eqb_eq in H. rewrite H. reflexivity.
Qed.

Lemma mark_h2_again (ssn : Ssn) (a b : bool) :
  mark_h2 (mark_h2 ssn a) b = mark_h2 ssn (a || b).
Proof. destruct a, b; reflexivity. Qed.

Lemma scan_without_tls (node : Node) (items : list Node) (ssn : Ssn)
    (errata : Errata.t) :
  forallb (fun n => negb (matches_tls n)) items = true ->
  ssn_open_scan node items ssn errata
  = (mark_h2 ssn (existsb matches_h2 items), errata).
Proof.
  revert ssn. induction items as [|n rest IH]; intros ssn Hno; simpl in *.
  - reflexivity.
  - apply andb_true_iff in Hno. destruct Hno as [Hn Hrest].
    apply negb_true_iff in Hn. unfold matches_tls in Hn. rewrite Hn.
    rewrite (IH _ Hrest).
    change (if Text.starts_with_nocase (Scalar_text n) H2_PREFIX
            then set_is_h2 ssn true else ssn) with (mark_h2 ssn (matches_h2 n)).
    now rewrite mark_h2_again.
Qed.

Lemma scan_until_tls (node : Node) (pre : list Node) (t : Node)
    (post : list Node) (ssn : Ssn) (errata : Errata.t) :
  forallb (fun n => negb (matches_tls n)) pre = true ->
  matches_tls t = true ->
  ssn_open_scan node (pre ++ t :: post) ssn errata
  = ssn_open_sni node
      (set_is_tls (mark_h2 ssn (existsb matches_h2 pre)) true) errata.
Proof.
  revert ssn. induction pre as [|n rest IH]; intros ssn Hno Ht; simpl in *.
  - pose proof (tls_is_not_h2 _ Ht) as Hh.
    unfold matches_tls in Ht. unfold matches_h2 in Hh. now rewrite Ht, Hh.
  - apply andb_true_iff in Hno. destruct Hno as [Hn Hrest].
    apply negb_true_iff in Hn. unfold matches_tls in Hn. rewrite Hn.
    rewrite (IH _ Hrest Ht).
    change (if Text.starts_with_nocase (Scalar_text n) H2_PREFIX
            then set_is_h2 ssn true else ssn) with (mark_h2 ssn (matches_h2 n)).
    now rewrite mark_h2_again.
Qed.

(** The flags and the SNI that [ssn_open_sni] and the start-time block
    leave: neither touches [is_tls] and [is_h2], and the start-time block
    does not touch [_client_sni]. *)
Lemma ssn_open_sni_flags (node : Node) (ssn : Ssn) (errata : Errata.t) :
  is_tls (fst (ssn_open_sni node ssn errata)) = is_tls ssn /\
  is_h2 (fst (ssn_open_sni node ssn errata)) = is_h2 ssn.
Proof.
  unfold ssn_open_sni.
  destruct (get node YAML_SSN_TLS_KEY) as [tls_node|]; [|now split].
  destruct (get tls_node YAML_SSN_TLS_CLIENT_SNI_KEY) as [c|]; [|now split].
  destruct (IsScalar c); now split.
Qed.

Lemma ssn_open_result (node : Node) (h : ClientReplayFileHandler) (line : Z)
    (items : list Node) :
  get node YAML_SSN_PROTOCOL_KEY = Some (Sequence line items) ->
  exists ssn : Ssn,
    Handler._ssn (snd (ssn_open node h)) = Some ssn /\
    is_tls ssn
    = is_tls (fst (ssn_open_scan node items
                     (set_line_no (set_path Ssn_new (Handler._path h))
                        (Mark_line node)) Errata.empty)) /\
    is_h2 ssn
    = is_h2 (fst (ssn_open_scan node items
                    (set_line_no (set_path Ssn_new (Handler._path h))
                       (Mark_line node)) Errata.empty)) /\
    _client_sni ssn
    = _client_sni (fst (ssn_open_scan node items
                          (set_line_no (set_path Ssn_new (Handler._path h))
                             (Mark_line node)) Errata.empty)).
Proof.
  intros Hproto. unfold ssn_open. rewrite Hproto. cbn [IsSequence items_of].
  destruct (ssn_open_scan node items _ Errata.empty) as [ssn errata].
  destruct (get node YAML_SSN_START_KEY) as [start_node|].
  - destruct (IsScalar start_node).
    + destruct (negb (svtou (Scalar_text start_node) =? 0));
        eexists; cbn; repeat split.
    + eexists; cbn; repeat split.
  - eexists; cbn; repeat split.
Qed.

(** C5. The protocol list of a session is scanned in file order.  The
    first entry that matches the TLS prefix sets [is_tls], has the SNI
    nested under the TLS section read, and ends the scan: the entries after
    it change nothing.  An entry that matches the HTTP/2 prefix before any
    TLS match sets [is_h2] and the scan goes on.  So ["h2", "tls"] gives
    [is_h2] and [is_tls], and ["tls", "h2"] gives [is_tls], the SNI of the
    TLS section, and not [is_h2]. *)
Theorem ssn_open_protocol_scan (node : Node) (h : ClientReplayFileHandler)
    (line : Z) (items : list Node) :
  get node YAML_SSN_PROTOCOL_KEY = Some (Sequence line items) ->
  (exists ssn : Ssn,
      Handler._ssn (snd (ssn_open node h)) = Some ssn /\
      (forallb (fun n => negb (matches_tls n)) items = true ->
       is_tls ssn = false /\
       is_h2 ssn = existsb matches_h2 items /\
       _client_sni ssn = EmptyString) /\
      (forall (pre : list Node) (t : Node) (post : list Node),
          items = pre ++ t :: post ->
          forallb (fun n => negb (matches_tls n)) pre = true ->
          matches_tls t = true ->
          is_tls ssn = true /\
          is_h2 ssn = existsb matches_h2 pre /\
          (forall (tls_node : Node) (l : Z) (sni : string),
              get node YAML_SSN_TLS_KEY = Some tls_node ->
              get tls_node YAML_SSN_TLS_CLIENT_SNI_KEY = Some (Scalar l sni) ->
              _client_sni ssn = localize_lower sni) /\
          (forall (node' : Node) (line' : Z) (post' : list Node),
              Mark_line node' = Mark_line node ->
              get node' YAML_SSN_TLS_KEY = get node YAML_SSN_TLS_KEY ->
              get node' YAML_SSN_START_KEY = get node YAML_SSN_START_KEY ->
              get node' YAML_SSN_PROTOCOL_KEY
              = Some (Sequence line' (pre ++ t :: post')) ->
              ssn_open node' h = ssn_open node h))) /\
  (exists ssn : Ssn,
      Handler._ssn (snd (ssn_open h2_tls_node h)) = Some ssn /\
      is_h2 ssn = true /\ is_tls ssn = true) /\
  (exists ssn : Ssn,
      Handler._ssn (snd (ssn_open tls_h2_node h)) = Some ssn /\
      is_tls ssn = true /\
      _client_sni ssn = localize_lower "Example.COM" /\
      is_h2 ssn = false).
Proof.
  intros Hproto.
  split; [|split].
  - destruct (@ssn_open_result node h line items Hproto)
      as (ssn & Hssn & Htls & Hh2 & Hsni).
    exists ssn. split; [exact Hssn|]. split.
    + intros Hno. rewrite Htls, Hh2, Hsni.
      rewrite scan_without_tls by exact Hno. cbn [fst].
      destruct (existsb matches_h2 items); now cbn.
    + intros pre t post -> Hno Ht.
      rewrite Htls, Hh2, Hsni. rewrite scan_until_tls by assumption.
      split; [|split; [|split]].
      * rewrite (proj1 (ssn_open_sni_flags _ _ _)).
        destruct (existsb matches_h2 pre); reflexivity.
      * rewrite (proj2 (ssn_open_sni_flags _ _ _)).
        destruct (existsb matches_h2 pre); reflexivity.
      * intros tls_node l sni Htlsn Hsnin. unfold ssn_open_sni.
        rewrite Htlsn, Hsnin. reflexivity.
      * intros node' line' post' Hmark Htlsn Hstart Hproto'.
        unfold ssn_open. rewrite Hproto, Hproto'.
        cbn [IsSequence items_of].
        rewrite !scan_until_tls by assumption.
        unfold ssn_open_sni. rewrite Htlsn, Hstart, Hmark. reflexivity.
  - eexists. split; [reflexivity|]. split; reflexivity.
  - eexists. split; [reflexivity|]. repeat split.
Qed.

(* ================================================================== *)
(** * Properties: the session registry *)

Lemma is_empty_false (A : Type) (l : list A) : is_empty l = false -> l <> [].
Proof. destruct l; [discriminate | discriminate]. Qed.

Lemma ssn_close_registry (me : nat) (g g' : Globals)
    (h h' : ClientReplayFileHandler) (e : Errata.t) :
  ssn_close me g h = Ok (e, g', h') ->
  exists ssn : Ssn,
    Handler._ssn h = Some ssn /\
    Session_List g'
    = if is_empty (_transactions ssn) then Session_List g
      else Session_List g ++ [ssn].
Proof.
  unfold ssn_close, lock, unlock.
  destruct (LoadMutex g); [discriminate|]. cbn [bind].
  destruct (Handler._ssn h) as [ssn|]; [|discriminate].
  rewrite Nat.eqb_refl.
  destruct (is_empty (_transactions ssn)) eqn:E; cbn;
    intros H; inversion H; subst; exists ssn; rewrite E; split; reflexivity.
Qed.

Lemma txn_open_registry (me : nat) (node : Node) (g g' : Globals)
    (e : Errata.t) :
  txn_open me node g = Ok (e, g') -> Session_List g' = Session_List g.
Proof.
  unfold txn_open.
  destruct (negb (Errata.is_ok _)).
  - returned; reflexivity.
  - unfold lock. destruct (LoadMutex g); [discriminate|].
    cbn. returned; reflexivity.
Qed.

Lemma txn_close_registry (me : nat) (g g' : Globals)
    (h h' : ClientReplayFileHandler) (e : Errata.t) :
  txn_close me g h = Ok (e, g', h') -> Session_List g' = Session_List g.
Proof.
  unfold txn_close.
  destruct (is_empty (Keys_Whitelist g) || whitelisted (Keys_Whitelist g) _).
  - destruct (Handler._ssn h); [|discriminate]. cbn [bind].
    unfold unlock. destruct (LoadMutex g) as [o|]; [|discriminate].
    destruct (Nat.eqb o me); [|discriminate].
    cbn. returned; reflexivity.
  - cbn [bind]. unfold unlock. destruct (LoadMutex g) as [o|]; [|discriminate].
    destruct (Nat.eqb o me); [|discriminate].
    cbn. returned; reflexivity.
Qed.

Lemma handler_call_registry (me : nat) (c : Call) (g g' : Globals)
    (h h' : ClientReplayFileHandler) (e : Errata.t) :
  handler_call me c g h = Ok (e, g', h') ->
  registry_ok g -> registry_ok g'.
Proof.
  unfold registry_ok. destruct c; cbn [handler_call].
  - destruct (ssn_open node h). returned; auto.
  - destruct (txn_open me node g) as [[e0 g0]| |] eqn:E; try discriminate.
    cbn. intros H; inversion H; subst.
    now rewrite (@txn_open_registry _ _ _ _ _ E).
  - destruct (client_request node g h). returned; auto.
  - destruct (proxy_request node g h). returned; auto.
  - destruct (server_response node g h). returned; auto.
  - destruct (proxy_response node g h). returned; auto.
  - destruct (apply_to_all_messages all_headers h).
    returned; auto.
  - intros H. now rewrite (@txn_close_registry _ _ _ _ _ _ H).
  - intros H Hok.
    destruct (@ssn_close_registry _ _ _ _ _ _ H) as (ssn & _ & ->).
    destruct (is_empty (_transactions ssn)) eqn:E; [exact Hok|].
    apply Forall_app. split; [exact Hok|].
    constructor; [now apply is_empty_false | constructor].
Qed.

Lemma load_calls_registry (calls : list (nat * Call)) (st st' : LoadState)
    (e : Errata.t) :
  load_calls calls st = Ok (e, st') ->
  registry_ok (globals st) -> registry_ok (globals st').
Proof.
  revert st e. induction calls as [|[me c] rest IH]; intros st e; cbn [load_calls].
  - returned; auto.
  - unfold load_step.
    destruct (handler_call me c (globals st) (handlers st me))
      as [[[e0 g0] h0]| |] eqn:E; try discriminate.
    cbn [bind snd fst].
    destruct (load_calls rest _) as [[e1 st1]| |] eqn:E1; try discriminate.
    cbn. intros H; inversion H; subst.
    intros Hok. apply (IH _ _ E1). cbn [globals snd].
    exact (@handler_call_registry _ _ _ _ _ _ _ E Hok).
Qed.

(** ** The load lock around a transaction *)

(** A [txn_open] that reports a failure leaves the globals, and so the
    mutex, as they were. *)
Lemma txn_open_failed_no_lock (me : nat) (node : Node) (g g' : Globals)
    (e : Errata.t) :
  txn_open me node g = Ok (e, g') -> e <> Errata.empty -> g' = g.
Proof.
  unfold txn_open.
  destruct (negb (Errata.is_ok _)).
  - now returned.
  - unfold lock. destruct (LoadMutex g); [discriminate|].
    cbn. returned. congruence.
Qed.

(** A [txn_open] that succeeds returns with the mutex held by the caller. *)
Lemma txn_open_ok_holds_lock (me : nat) (node : Node) (g g' : Globals) :
  txn_open me node g = Ok (Errata.empty, g') -> LoadMutex g' = Some me.
Proof.
  unfold txn_open.
  destruct (negb (Errata.is_ok _)) eqn:E.
  - intros H. inversion H as [[He Hg]]. rewrite He in E. discriminate E.
  - unfold lock. destruct (LoadMutex g); [discriminate|].
    cbn. returned. reflexivity.
Qed.

(** [txn_close] unlocks whatever came before: it returns only when the
    caller held the mutex, and leaves it free. *)
Lemma txn_close_always_unlocks (me : nat) (g g' : Globals)
    (h h' : ClientReplayFileHandler) (e : Errata.t) :
  txn_close me g h = Ok (e, g', h') ->
  LoadMutex g = Some me /\ LoadMutex g' = None.
Proof.
  unfold txn_close, unlock.
  destruct (is_empty (Keys_Whitelist g) || whitelisted (Keys_Whitelist g) _).
  - destruct (Handler._ssn h); [|discriminate]. cbn [bind].
    destruct (LoadMutex g) as [o|]; [|discriminate].
    destruct (Nat.eqb o me) eqn:E; [|discriminate].
    apply Nat.eqb_eq in E. subst o. cbn. returned. now split.
  - cbn [bind].
    destruct (LoadMutex g) as [o|]; [|discriminate].
    destruct (Nat.eqb o me) eqn:E; [|discriminate].
    apply Nat.eqb_eq in E. subst o. cbn. returned. now split.
Qed.

(** [client_request] never returns what the loader reported;
    [proxy_request] does. *)
Lemma client_request_errata (node : Node) (g : Globals)
    (h : ClientReplayFileHandler) :
  fst (client_request node g h) = Errata.empty.
Proof.
  unfold client_request.
  destruct (negb (Use_Proxy_Request_Directives g)); [|reflexivity].
  now destruct (load (_req (Handler._txn h)) node).
Qed.

Lemma proxy_request_errata (node : Node) (g : Globals)
    (h : ClientReplayFileHandler) :
  Use_Proxy_Request_Directives g = true ->
  fst (proxy_request node g h) = fst (load (_req (Handler._txn h)) node).
Proof.
  unfold proxy_request. intros ->.
  now destruct (load (_req (Handler._txn h)) node).
Qed.

(** C9. Every session of the registry has at least one transaction:
    whatever calls the loader threads make on their handlers, a registry
    whose sessions all have a transaction stays so, and [ssn_close] on a
    session without transactions leaves the registry as it is. *)
Theorem registry_sessions_have_transactions
    (calls : list (nat * Call)) (st st' : LoadState) (e : Errata.t) :
  registry_ok (globals st) ->
  load_calls calls st = Ok (e, st') ->
  registry_ok (globals st') /\
  (forall (me : nat) (g g' : Globals) (h h' : ClientReplayFileHandler)
          (ssn : Ssn) (e' : Errata.t),
      Handler._ssn h = Some ssn ->
      _transactions ssn = [] ->
      ssn_close me g h = Ok (e', g', h') ->
      Session_List g' = Session_List g).
Proof.
  intros Hok Hload. split.
  - exact (@load_calls_registry _ _ _ _ Hload Hok).
  - intros me g g' h h' ssn e' Hssn Hempty Hclose.
    destruct (@ssn_close_registry _ _ _ _ _ _ Hclose) as (ssn' & Hssn' & ->).
    rewrite Hssn in Hssn'. inversion Hssn'; subst.
    now rewrite Hempty.
Qed.

(* ================================================================== *)
(** * Properties: the worker loop and the session runner *)

Lemma at_index_ok (A : Type) (l : list A) (i : Z) :
  0 <= i < Z.of_nat (List.length l) ->
  exists a : A, at_index l i = Ok a /\ nth_error l (Z.to_nat i) = Some a.
Proof.
  intros Hi. unfold at_index.
  destruct (i <? 0) eqn:E; [apply Z.ltb_lt in E; lia|].
  destruct (nth_error l (Z.to_nat i)) as [a|] eqn:En.
  - now exists a.
  - apply nth_error_None in En. lia.
Qed.

Lemma advance_mod (index : Z) (size : nat) :
  0 <= index < Z.of_nat size ->
  advance index size = (index + 1) mod Z.of_nat size.
Proof.
  intros Hi. unfold advance.
  destruct (index + 1 >=? Z.of_nat size) eqn:E.
  - apply Z.geb_le in E.
    replace (index + 1) with (Z.of_nat size) by lia.
    now rewrite Z_mod_same_full.
  - rewrite Z.geb_leb in E. apply Z.leb_gt in E.
    rewrite Z.mod_small; lia.
Qed.

Lemma index_at_advance (index : Z) (size : nat) (n : nat) :
  0 <= index < Z.of_nat size ->
  map (index_at (advance index size) size) (seq 0 n)
  = map (index_at index size) (seq 1 n).
Proof.
  intros Hi. rewrite <- seq_shift, map_map.
  apply map_ext. intros k. unfold index_at.
  rewrite advance_mod by exact Hi.
  rewrite Zplus_mod_idemp_l. f_equal. lia.
Qed.

Lemma index_at_0 (index : Z) (size : nat) :
  0 <= index < Z.of_nat size -> index_at index size 0 = index.
Proof.
  intros Hi. unfold index_at. cbn [Z.of_nat].
  rewrite Z.add_0_r. now apply Z.mod_small.
Qed.

Lemma TF_Client_loop_indices (g : Globals) (work : list Ssn) :
  forall target_index target_https_index : Z,
    0 <= target_index < Z.of_nat (List.length (Target g)) ->
    0 <= target_https_index < Z.of_nat (List.length (Target_Https g)) ->
    exists rans : list Ran,
      TF_Client_loop g work target_index target_https_index = Ok rans /\
      map ran_ssn rans = work /\
      map ran_target_index rans
      = map (index_at target_index (List.length (Target g)))
          (seq 0 (List.length work)) /\
      map ran_target_https_index rans
      = map (index_at target_https_index (List.length (Target_Https g)))
          (seq 0 (List.length work)) /\
      Forall (ran_as_indexed g) rans.
Proof.
  induction work as [|ssn rest IH]; intros ti thi Hti Hthi.
  - exists []. cbn. repeat split. constructor.
  - cbn [TF_Client_loop].
    destruct (at_index_ok (Target g) Hti) as (target & -> & Ht).
    destruct (at_index_ok (Target_Https g) Hthi) as (target_https & -> & Hth).
    cbn [bind].
    destruct (Run_Session g ssn target target_https) as [result calls] eqn:Erun.
    destruct (IH (advance ti (List.length (Target g)))
                 (advance thi (List.length (Target_Https g))))
      as (rans & -> & Hssn & Hidx & Hidx' & Hran).
    + rewrite advance_mod by exact Hti. apply Z.mod_pos_bound. lia.
    + rewrite advance_mod by exact Hthi. apply Z.mod_pos_bound. lia.
    + cbn [bind]. eexists. split; [reflexivity|].
      cbn [map ran_ssn ran_target_index ran_target_https_index List.length seq].
      rewrite Hssn, Hidx, Hidx'.
      rewrite !index_at_advance, !index_at_0 by assumption.
      repeat split.
      constructor; [|exact Hran].
      exists target, target_https. cbn. now rewrite Erun.
Qed.

(** C1, as the code has it.  Every worker thread has its own two cursors.
    Both start at 0 and both are advanced once for every session the worker
    runs, whatever the protocol of the session, each wrapping at the length
    of its own list: the session at position [k] of the work of a worker is
    run with HTTP target [k mod |Target|] and HTTPS target
    [k mod |Target_Https|].  With 2 HTTP and 3 HTTPS targets, five sessions
    run by one worker get the HTTP targets [0,1,0,1,0] and the HTTPS targets
    [0,1,2,0,1]. *)
Theorem TF_Client_round_robin (g : Globals) (work : list Ssn) :
  Target g <> [] ->
  Target_Https g <> [] ->
  exists rans : list Ran,
    TF_Client g work = Ok rans /\
    map ran_ssn rans = work /\
    map ran_target_index rans
    = map (fun k => Z.of_nat k mod Z.of_nat (List.length (Target g)))
        (seq 0 (List.length work)) /\
    map ran_target_https_index rans
    = map (fun k => Z.of_nat k mod Z.of_nat (List.length (Target_Https g)))
        (seq 0 (List.length work)) /\
    Forall (ran_as_indexed g) rans /\
    (List.length (Target g) = 2%nat ->
     List.length (Target_Https g) = 3%nat ->
     List.length work = 5%nat ->
     map ran_target_index rans = [0; 1; 0; 1; 0] /\
     map ran_target_https_index rans = [0; 1; 2; 0; 1]).
Proof.
  intros HT HTh.
  assert (H1 : 0 <= 0 < Z.of_nat (List.length (Target g))).
  { destruct (Target g); [congruence | cbn [List.length]; lia]. }
  assert (H2 : 0 <= 0 < Z.of_nat (List.length (Target_Https g))).
  { destruct (Target_Https g); [congruence | cbn [List.length]; lia]. }
  destruct (TF_Client_loop_indices g work H1 H2)
    as (rans & Hrun & Hssn & Hidx & Hidx' & Hran).
  exists rans. unfold TF_Client.
  split; [exact Hrun|]. split; [exact Hssn|].
  split; [exact Hidx|]. split; [exact Hidx'|]. split; [exact Hran|].
  intros L2 L3 L5. rewrite Hidx, Hidx', L2, L3, L5. split; reflexivity.
Qed.

Lemma is_ok_note (e other : Errata.t) :
  Errata.is_ok (Errata.note e other) = Errata.is_ok e && Errata.is_ok other.
Proof. unfold Errata.is_ok, Errata.note. apply forallb_app. Qed.

(** C4, as the code has it.  An HTTP/2 session is skipped when the client
    follows the proxy-request directives, that is when it runs without a
    proxy ([--no-proxy]): two diagnostics are logged, the errata stays ok
    and no call is made on any runner.  When the client expects a proxy on
    the path, the session is run by the HTTP/2 runner against the HTTPS
    target: it connects there, and runs the transactions there when the
    connection succeeded. *)
Theorem h2_session_dispatch (g : Globals) (ssn : Ssn)
    (target target_https : IPEndpoint) :
  is_h2 ssn = true ->
  (Use_Proxy_Request_Directives g = true ->
   Run_Session g ssn target target_https
   = ([(Errata.S_DIAG, "Starting session."%string);
       (Errata.S_DIAG, "Ignoring HTTP/2 traffic in proxy mode."%string)], []) /\
   Errata.is_ok (fst (Run_Session g ssn target target_https)) = true) /\
  (Use_Proxy_Request_Directives g = false ->
   snd (Run_Session g ssn target target_https)
   = Connect H2Session target_https
       :: (if Errata.is_ok (do_connect H2Session target_https)
           then [RunTransactions H2Session (_transactions ssn) target_https]
           else [])).
Proof.
  intros Hh2. unfold Run_Session. rewrite Hh2. split; intros ->.
  - split; reflexivity.
  - unfold connect_and_run. rewrite is_ok_note.
    cbn [Errata.is_ok Errata.diag Errata.empty app forallb fst Errata.level
         Errata.FAILURE_SEVERITY Z.ltb Z.compare andb].
    destruct (Errata.is_ok (do_connect H2Session target_https)); reflexivity.
Qed.

(* ================================================================== *)
(** * Properties: dispatch and the exit status *)

Lemma dispatch_sessions_calls (sessions : list Ssn) (d : Dispatch) :
  d_calls (dispatch_sessions sessions d)
  = (d_calls d + List.length sessions)%nat.
Proof.
  unfold dispatch_sessions. revert d.
  induction sessions as [|ssn rest IH]; intros d; cbn [fold_left List.length].
  - lia.
  - rewrite IH. unfold dispatch_one.
    destruct (get_worker (d_calls d)); cbn [d_calls]; lia.
Qed.

Lemma repeat_loop_calls (count : nat) (sessions : list Ssn) (d : Dispatch) :
  d_calls (repeat_loop count sessions d)
  = (d_calls d + count * List.length sessions)%nat.
Proof.
  revert d. induction count as [|n IH]; intros d; cbn [repeat_loop].
  - lia.
  - rewrite IH, dispatch_sessions_calls. lia.
Qed.

(** C3, as the code has it.  When no worker is obtained for a session, an
    error is added to the errata, the session is not assigned but is
    counted, and the loop goes on with the next session.  The exit status
    is not touched: it is 0 or 1, it is 1 only when [command_run] returned
    before the dispatch (no call of [get_worker] was made), and when it is 0
    [get_worker] was called once for every session of every repetition. *)
Theorem worker_failure_is_not_fatal :
  (forall (ssn : Ssn) (d : Dispatch),
      get_worker (d_calls d) = None ->
      dispatch_one ssn d
      = mkDispatch
          (Errata.error (d_errata d) "Failed to get worker thread")
          (Machine.wrap_unsigned (n_ssn d + 1))
          (Machine.wrap_unsigned
             (n_txn d + Z.of_nat (List.length (_transactions ssn))))
          (d_assigned d)
          (S (d_calls d))) /\
  (forall (arguments : Args) (g : Globals) (out : Outcome),
      command_run arguments g = Ok out ->
      (status_code out = 0 \/ status_code out = 1) /\
      (status_code out <> 0 -> worker_calls out = 0%nat /\ assigned out = []) /\
      (status_code out = 0 ->
       worker_calls out
       = (Z.to_nat (repeat_count_of arguments)
          * List.length (Session_List (out_globals out)))%nat)).
Proof.
  split.
  - intros ssn d Hnone. unfold dispatch_one. now rewrite Hnone.
  - intros arguments g out. unfold command_run.
    assert (Hfailed : forall g0 e0,
               (status_code (failed g0 e0) = 0 \/ status_code (failed g0 e0) = 1) /\
               (status_code (failed g0 e0) <> 0 ->
                worker_calls (failed g0 e0) = 0%nat /\ assigned (failed g0 e0) = []) /\
               (status_code (failed g0 e0) = 0 ->
                worker_calls (failed g0 e0)
                = (Z.to_nat (repeat_count_of arguments)
                   * List.length (Session_List (out_globals (failed g0 e0))))%nat)).
    { intros g0 e0. cbn. repeat split; try (now right); discriminate. }
    destruct (List.length (run_args arguments) <? 3)%nat.
    { returned. apply Hfailed. }
    destruct (resolve_ips (nth 1 (run_args arguments) EmptyString)) as [e1 ips1].
    destruct (negb (Errata.is_ok (Errata.note Errata.empty e1))).
    { returned. apply Hfailed. }
    destruct (resolve_ips (nth 2 (run_args arguments) EmptyString)) as [e2 ips2].
    destruct (negb (Errata.is_ok (Errata.note (Errata.note Errata.empty e1) e2))).
    { returned. apply Hfailed. }
    destruct (Load_Replay_Directory (nth 0 (run_args arguments) EmptyString))
      as [e3 calls].
    destruct (load_calls calls _) as [[e4 st]| |]; cbn [bind]; try discriminate.
    destruct (negb (Errata.is_ok _)).
    { returned. apply Hfailed. }
    destruct (sort_and_adjust _) as [[sessions tc] mcl].
    intros H; inversion H; subst. cbn.
    split; [now left|]. split; [congruence|]. intros _.
    rewrite repeat_loop_calls. reflexivity.
Qed.

(* ================================================================== *)
(** * Further properties: the handler *)

Lemma ssn_open_sni_keeps (node : Node) (ssn : Ssn) (errata : Errata.t) :
  let r := fst (ssn_open_sni node ssn errata) in
  _transactions r = _transactions ssn /\ _path r = _path ssn /\
  _line_no r = _line_no ssn /\ _start r = _start ssn.
Proof.
  unfold ssn_open_sni.
  destruct (get node YAML_SSN_TLS_KEY) as [tls_node|]; [|now cbn].
  destruct (get tls_node YAML_SSN_TLS_CLIENT_SNI_KEY) as [c|]; [|now cbn].
  destruct (IsScalar c); now cbn.
Qed.

Lemma ssn_open_scan_keeps (node : Node) (items : list Node) (ssn : Ssn)
    (errata : Errata.t) :
  let r := fst (ssn_open_scan node items ssn errata) in
  _transactions r = _transactions ssn /\ _path r = _path ssn /\
  _line_no r = _line_no ssn /\ _start r = _start ssn.
Proof.
  revert ssn. induction items as [|n rest IH]; intros ssn; cbn [ssn_open_scan].
  - now cbn.
  - destruct (Text.starts_with_nocase (Scalar_text n) TLS_PREFIX).
    + destruct (ssn_open_sni_keeps node
                  (set_is_tls
                     (if Text.starts_with_nocase (Scalar_text n) H2_PREFIX
                      then set_is_h2 ssn true else ssn) true) errata)
        as (H1 & H2 & H3 & H4).
      cbv zeta. rewrite H1, H2, H3, H4.
      destruct (Text.starts_with_nocase (Scalar_text n) H2_PREFIX); now cbn.
    + destruct (IH (if Text.starts_with_nocase (Scalar_text n) H2_PREFIX
                    then set_is_h2 ssn true else ssn)) as (H1 & H2 & H3 & H4).
      cbv zeta. rewrite H1, H2, H3, H4.
      destruct (Text.starts_with_nocase (Scalar_text n) H2_PREFIX); now cbn.
Qed.

Lemma ssn_open_sni_errata (node : Node) (ssn : Ssn) (errata : Errata.t) :
  Forall from_protocol_block errata ->
  Forall from_protocol_block (snd (ssn_open_sni node ssn errata)).
Proof.
  intros He. unfold ssn_open_sni.
  destruct (get node YAML_SSN_TLS_KEY) as [tls_node|]; [|exact He].
  destruct (get tls_node YAML_SSN_TLS_CLIENT_SNI_KEY) as [c|]; [|exact He].
  destruct (IsScalar c); [exact He|].
  cbn [snd]. unfold Errata.error. apply Forall_app. split; [exact He|].
  constructor; [now left | constructor].
Qed.

Lemma ssn_open_scan_errata (node : Node) (items : list Node) (ssn : Ssn)
    (errata : Errata.t) :
  Forall from_protocol_block errata ->
  Forall from_protocol_block (snd (ssn_open_scan node items ssn errata)).
Proof.
  revert ssn. induction items as [|n rest IH]; intros ssn He;
    cbn [ssn_open_scan].
  - exact He.
  - destruct (Text.starts_with_nocase (Scalar_text n) TLS_PREFIX).
    + now apply ssn_open_sni_errata.
    + now apply IH.
Qed.

Lemma start_warnings_not_from_protocol_block (errata : Errata.t) :
  Forall from_protocol_block errata ->
  ~ In start_not_positive errata /\ ~ In start_not_scalar errata.
Proof.
  intros He. rewrite Forall_forall in He.
  split; intros Hin; destruct (He _ Hin) as [H|[H|H]]; discriminate H.
Qed.

(** X1. [ssn_open] always leaves a new session in the handler, whatever
    was there: it has no transaction, the path of the handler and the line
    of the node.  Its start is the value of a scalar [connection-time]
    divided by 1000 (so 0 for a value below 1000), and 0 when the key is
    missing or not a scalar.  The warning for a value that is not positive
    is in the errata exactly when the key is a scalar of value 0, the
    warning for a key that is not a scalar exactly when it is there and not
    a scalar. *)
Theorem ssn_open_new_session (node : Node) (h : ClientReplayFileHandler) :
  exists ssn : Ssn,
    snd (ssn_open node h) = set_ssn h (Some ssn) /\
    _transactions ssn = [] /\
    _path ssn = Handler._path h /\
    _line_no ssn = Mark_line node /\
    _start ssn
    = match get node YAML_SSN_START_KEY with
      | Some (Scalar _ text) => svtou text / 1000
      | _ => 0
      end /\
    (In start_not_positive (fst (ssn_open node h)) <->
     exists (l : Z) (text : string),
       get node YAML_SSN_START_KEY = Some (Scalar l text) /\ svtou text = 0) /\
    (In start_not_scalar (fst (ssn_open node h)) <->
     exists n : Node,
       get node YAML_SSN_START_KEY = Some n /\ IsScalar n = false).
Proof.
  unfold ssn_open.
  set (ssn0 := set_line_no (set_path Ssn_new (Handler._path h)) (Mark_line node)).
  assert (Hblock :
    exists (ssn1 : Ssn) (e1 : Errata.t),
      match get node YAML_SSN_PROTOCOL_KEY with
      | Some proto_node =>
          if IsSequence proto_node
          then ssn_open_scan node (items_of proto_node) ssn0 Errata.empty
          else (ssn0, Errata.warn Errata.empty
                        "Session has a value for protocol that is not a sequence.")
      | None => (ssn0, Errata.info Errata.empty "Session has no protocol key.")
      end = (ssn1, e1) /\
      _transactions ssn1 = [] /\ _path ssn1 = Handler._path h /\
      _line_no ssn1 = Mark_line node /\ _start ssn1 = 0 /\
      Forall from_protocol_block e1).
  { destruct (get node YAML_SSN_PROTOCOL_KEY) as [proto_node|].
    - destruct (IsSequence proto_node).
      + pose proof (ssn_open_scan_keeps node (items_of proto_node) ssn0
                      Errata.empty) as Hk.
        pose proof (@ssn_open_scan_errata node (items_of proto_node) ssn0
                      Errata.empty (Forall_nil _)) as He.
        destruct (ssn_open_scan node (items_of proto_node) ssn0 Errata.empty)
          as [ssn1 e1].
        cbn [fst snd] in *. destruct Hk as (H1 & H2 & H3 & H4).
        exists ssn1, e1. repeat split; assumption.
      + eexists. eexists. split; [reflexivity|]. repeat split.
        constructor; [now right; right | constructor].
    - eexists. eexists. split; [reflexivity|]. repeat split.
      constructor; [now right; left | constructor]. }
  destruct Hblock as (ssn1 & e1 & -> & Ht & Hp & Hl & Hs & He).
  destruct (start_warnings_not_from_protocol_block He) as (Hn1 & Hn2).
  destruct (get node YAML_SSN_START_KEY) as [start_node|].
  - destruct start_node as [l text|l items|l entries|l]; cbn [IsScalar Scalar_text].
    + destruct (svtou text =? 0) eqn:E; cbn [negb].
      * apply Z.eqb_eq in E.
        exists ssn1. split; [reflexivity|]. repeat split; try assumption.
        -- rewrite Hs, E. reflexivity.
        -- intros _. now exists l, text.
        -- intros _. unfold Errata.warn. apply in_or_app. right. now left.
        -- unfold Errata.warn. intros Hin. apply in_app_or in Hin.
           destruct Hin as [Hin|[Hin|[]]]; [contradiction | discriminate Hin].
        -- intros (n & Hn & Hsc). inversion Hn; subst. discriminate Hsc.
      * apply Z.eqb_neq in E.
        exists (set_start ssn1 (svtou text / 1000)).
        split; [reflexivity|]. repeat split; try assumption.
        -- intros Hin. contradiction.
        -- intros (l' & text' & Heq & H0). inversion Heq; subst. contradiction.
        -- intros Hin. contradiction.
        -- intros (n & Hn & Hsc). inversion Hn; subst. discriminate Hsc.
    + exists ssn1. split; [reflexivity|]. repeat split; try assumption.
      * unfold Errata.warn. intros Hin. apply in_app_or in Hin.
        destruct Hin as [Hin|[Hin|[]]]; [contradiction | discriminate Hin].
      * intros (l' & text' & Heq & _). discriminate Heq.
      * intros _. now eexists.
      * intros _. unfold Errata.warn. apply in_or_app. right. now left.
    + exists ssn1. split; [reflexivity|]. repeat split; try assumption.
      * unfold Errata.warn. intros Hin. apply in_app_or in Hin.
        destruct Hin as [Hin|[Hin|[]]]; [contradiction | discriminate Hin].
      * intros (l' & text' & Heq & _). discriminate Heq.
      * intros _. now eexists.
      * intros _. unfold Errata.warn. apply in_or_app. right. now left.
    + exists ssn1. split; [reflexivity|]. repeat split; try assumption.
      * unfold Errata.warn. intros Hin. apply in_app_or in Hin.
        destruct Hin as [Hin|[Hin|[]]]; [contradiction | discriminate Hin].
      * intros (l' & text' & Heq & _). discriminate Heq.
      * intros _. now eexists.
      * intros _. unfold Errata.warn. apply in_or_app. right. now left.
  - exists ssn1. split; [reflexivity|]. repeat split; try assumption.
    + intros Hin. contradiction.
    + intros (l' & text' & Heq & _). discriminate Heq.
    + intros Hin. contradiction.
    + intros (n & Hn & _). discriminate Hn.
Qed.

Lemma handler_call_registry_grows (me : nat) (c : Call) (g g' : Globals)
    (h h' : ClientReplayFileHandler) (e : Errata.t) :
  handler_call me c g h = Ok (e, g', h') ->
  exists added : list Ssn,
    Session_List g' = Session_List g ++ added /\
    (List.length added <= closes [(me, c)])%nat /\
    Forall (fun s => Handler._ssn h = Some s) added.
Proof.
  destruct c; cbn [handler_call].
  - destruct (ssn_open node h). returned. exists []. rewrite app_nil_r.
    split; [reflexivity|]. split; [cbn; lia | constructor].
  - destruct (txn_open me node g) as [[e0 g0]| |] eqn:E; try discriminate.
    cbn. returned. exists [].
    rewrite (@txn_open_registry _ _ _ _ _ E), app_nil_r.
    split; [reflexivity|]. split; [cbn; lia | constructor].
  - destruct (client_request node g h). returned. exists []. rewrite app_nil_r.
    split; [reflexivity|]. split; [cbn; lia | constructor].
  - destruct (proxy_request node g h). returned. exists []. rewrite app_nil_r.
    split; [reflexivity|]. split; [cbn; lia | constructor].
  - destruct (server_response node g h). returned. exists []. rewrite app_nil_r.
    split; [reflexivity|]. split; [cbn; lia | constructor].
  - destruct (proxy_response node g h). returned. exists []. rewrite app_nil_r.
    split; [reflexivity|]. split; [cbn; lia | constructor].
  - destruct (apply_to_all_messages all_headers h). returned. exists []. rewrite app_nil_r.
    split; [reflexivity|]. split; [cbn; lia | constructor].
  - intros H. exists []. rewrite (@txn_close_registry _ _ _ _ _ _ H), app_nil_r.
    split; [reflexivity|]. split; [cbn; lia | constructor].
  - intros H. destruct (@ssn_close_registry _ _ _ _ _ _ H) as (ssn & Hssn & ->).
    destruct (is_empty (_transactions ssn)).
    + exists []. rewrite app_nil_r.
      split; [reflexivity|]. split; [cbn; lia | constructor].
    + exists [ssn].
      split; [reflexivity|]. split; [cbn; lia | now constructor].
Qed.

Lemma closes_cons (ev : nat * Call) (calls : list (nat * Call)) :
  closes (ev :: calls) = (closes [ev] + closes calls)%nat.
Proof.
  unfold closes. cbn [filter].
  destruct (match snd ev with Call_ssn_close => true | _ => false end);
    reflexivity.
Qed.

(** X2. The registry only grows during a load, at its end, and by at most
    one session for every [ssn_close]: after any calls that return, the
    registry is the one before followed by at most as many sessions as
    there were [ssn_close] calls. *)
Theorem registry_is_append_only (calls : list (nat * Call))
    (st st' : LoadState) (e : Errata.t) :
  load_calls calls st = Ok (e, st') ->
  exists added : list Ssn,
    Session_List (globals st') = Session_List (globals st) ++ added /\
    (List.length added <= closes calls)%nat.
Proof.
  revert st e. induction calls as [|[me c] rest IH]; intros st e;
    cbn [load_calls].
  - returned. exists []. now rewrite app_nil_r.
  - unfold load_step.
    destruct (handler_call me c (globals st) (handlers st me))
      as [[[e0 g0] h0]| |] eqn:E; try discriminate.
    cbn [bind snd fst].
    destruct (load_calls rest _) as [[e1 st1]| |] eqn:E1; try discriminate.
    cbn [bind fst snd]. returned.
    destruct (@handler_call_registry_grows _ _ _ _ _ _ _ E)
      as (added0 & H0 & L0 & _).
    destruct (IH _ _ E1) as (added1 & H1 & L1).
    cbn [globals] in H1.
    exists (added0 ++ added1). split.
    + rewrite H1, H0. now rewrite app_assoc.
    + rewrite closes_cons, length_app. lia.
Qed.

Lemma whitelisted_In (keys : list string) (key : string) :
  whitelisted keys key = true <-> In key keys.
Proof.
  unfold whitelisted. rewrite existsb_exists. split.
  - intros (k & Hin & Heq). apply String.eqb_eq in Heq. now subst.
  - intros Hin. exists key. split; [exact Hin | apply String.eqb_refl].
Qed.

(** X3. [txn_close], called by the thread that holds the load lock on a
    handler with a session, returns an empty errata, releases the lock and
    leaves a new transaction (with the strict flag of the globals) under
    construction.  The closed transaction is attached at the end of the
    transactions of the session when the key list is empty or contains the
    key of its request; otherwise the session keeps its transactions as
    they were.  Nothing else of the session changes. *)
Theorem txn_close_filters_by_key (me : nat) (g : Globals)
    (h : ClientReplayFileHandler) (ssn : Ssn) :
  LoadMutex g = Some me ->
  Handler._ssn h = Some ssn ->
  exists (h' : ClientReplayFileHandler) (ssn' : Ssn),
    txn_close me g h = Ok (Errata.empty, set_LoadMutex g None, h') /\
    Handler._txn h' = Txn_new (Use_Strict_Checking g) /\
    Handler._path h' = Handler._path h /\
    Handler._ssn h' = Some ssn' /\
    ssn' = set_transactions ssn (_transactions ssn') /\
    (Keys_Whitelist g = [] \/
     In (make_key (_req (Handler._txn h))) (Keys_Whitelist g) ->
     _transactions ssn' = _transactions ssn ++ [Handler._txn h]) /\
    (Keys_Whitelist g <> [] ->
     ~ In (make_key (_req (Handler._txn h))) (Keys_Whitelist g) ->
     _transactions ssn' = _transactions ssn).
Proof.
  intros Hlock Hssn. unfold txn_close.
  rewrite Hlock, Hssn. unfold unlock. rewrite Nat.eqb_refl.
  destruct (is_empty (Keys_Whitelist g)
            || whitelisted (Keys_Whitelist g) (make_key (_req (Handler._txn h))))
    eqn:Ekept; cbn [bind].
  - eexists. eexists. split; [reflexivity|]. cbn.
    repeat split.
    intros Hne Hnot. exfalso.
    apply orb_true_iff in Ekept. destruct Ekept as [Hempty|Hin].
    + destruct (Keys_Whitelist g); [now apply Hne | discriminate Hempty].
    + now apply Hnot, whitelisted_In.
  - exists (txn_reset g h), ssn. split; [reflexivity|].
    cbn. rewrite Hssn. repeat split.
    + now destruct ssn.
    + intros Hkept. exfalso.
      apply orb_false_iff in Ekept. destruct Ekept as [Hempty Hin].
      destruct Hkept as [Hnil|Hkey].
      * rewrite Hnil in Hempty. discriminate Hempty.
      * apply whitelisted_In in Hkey. congruence.
Qed.

(** X5. The load lock changes hands only in two ways.  Of the calls that
    return, a [txn_open] either reports a failure and leaves the globals as
    they are, or finds the lock free and returns with the caller holding
    it; a [txn_close] is made by the holder and frees the lock; an
    [ssn_close] finds the lock free and leaves it free, with a handler that
    has no session any more; every other call leaves the globals as they
    are. *)
Theorem load_lock_transitions (me : nat) (c : Call) (g g' : Globals)
    (h h' : ClientReplayFileHandler) (e : Errata.t) :
  handler_call me c g h = Ok (e, g', h') ->
  match c with
  | Call_txn_open _ =>
      (e <> Errata.empty /\ g' = g) \/
      (e = Errata.empty /\ LoadMutex g = None /\ LoadMutex g' = Some me)
  | Call_txn_close => LoadMutex g = Some me /\ LoadMutex g' = None
  | Call_ssn_close =>
      LoadMutex g = None /\ LoadMutex g' = None /\ Handler._ssn h' = None
  | _ => g' = g
  end.
Proof.
  destruct c; cbn [handler_call].
  - destruct (ssn_open node h). now returned.
  - unfold txn_open. cbv zeta.
    destruct (negb (Errata.is_ok _)) eqn:Eok.
    + cbn [bind fst snd]. returned. left.
      split; [|reflexivity].
      intros Hempty. rewrite Hempty in Eok. discriminate Eok.
    + unfold lock. destruct (LoadMutex g) eqn:Em; [discriminate|].
      cbn. returned. right. now repeat split.
  - destruct (client_request node g h). now returned.
  - destruct (proxy_request node g h). now returned.
  - destruct (server_response node g h). now returned.
  - destruct (proxy_response node g h). now returned.
  - destruct (apply_to_all_messages all_headers h). now returned.
  - apply txn_close_always_unlocks.
  - unfold ssn_close, lock, unlock.
    destruct (LoadMutex g) eqn:Em; [discriminate|]. cbn [bind].
    destruct (Handler._ssn h) as [ssn|]; [|discriminate].
    rewrite Nat.eqb_refl.
    destruct (negb (is_empty (_transactions ssn))); cbn; returned;
      now repeat split.
Qed.

Lemma ssn_open_starts_empty (node : Node) (h : ClientReplayFileHandler) :
  exists ssn : Ssn,
    snd (ssn_open node h) = set_ssn h (Some ssn) /\ _transactions ssn = [].
Proof.
  unfold ssn_open.
  set (ssn0 := set_line_no (set_path Ssn_new (Handler._path h)) (Mark_line node)).
  assert (Hblock :
    _transactions
      (fst match get node YAML_SSN_PROTOCOL_KEY with
           | Some proto_node =>
               if IsSequence proto_node
               then ssn_open_scan node (items_of proto_node) ssn0 Errata.empty
               else (ssn0, Errata.warn Errata.empty
                             "Session has a value for protocol that is not a sequence.")
           | None => (ssn0, Errata.info Errata.empty "Session has no protocol key.")
           end) = []).
  { destruct (get node YAML_SSN_PROTOCOL_KEY) as [proto_node|]; [|reflexivity].
    destruct (IsSequence proto_node); [|reflexivity].
    now destruct (ssn_open_scan_keeps node (items_of proto_node) ssn0
                    Errata.empty) as (-> & _). }
  destruct (match get node YAML_SSN_PROTOCOL_KEY with
            | Some _ => _ | None => _ end) as [ssn1 e1].
  cbn [fst] in Hblock.
  destruct (get node YAML_SSN_START_KEY) as [start_node|].
  - destruct (IsScalar start_node).
    + destruct (negb (svtou (Scalar_text start_node) =? 0));
        eexists; split; try reflexivity; exact Hblock.
    + eexists; split; [reflexivity | exact Hblock].
  - eexists; split; [reflexivity | exact Hblock].
Qed.

Lemma handler_call_strict (b : bool) (me : nat) (c : Call) (g g' : Globals)
    (h h' : ClientReplayFileHandler) (e : Errata.t) :
  handler_call me c g h = Ok (e, g', h') ->
  strict_globals b g -> strict_handler b h ->
  strict_globals b g' /\ strict_handler b h'.
Proof.
  intros Hcall (Hflag & Hreg) (Htxn & Hssn). subst b.
  destruct c; cbn [handler_call] in Hcall.
  - destruct (ssn_open_starts_empty node h) as (ssn & Hh & Hempty).
    destruct (ssn_open node h) as [e0 h0]. cbn [snd] in Hh. subst h0.
    inversion Hcall; subst. split; [now split|]. split; [exact Htxn|].
    cbn. intros ssn' Heq. inversion Heq; subst. rewrite Hempty. constructor.
  - destruct (txn_open me node g) as [[e0 g0]| |] eqn:E; try discriminate.
    cbn in Hcall. inversion Hcall; subst. split; [|now split].
    unfold txn_open in E. destruct (negb (Errata.is_ok _)).
    + inversion E; subst. now split.
    + unfold lock in E. destruct (LoadMutex g); [discriminate|].
      cbn in E. inversion E; subst. now split.
  - unfold client_request in Hcall.
    destruct (negb (Use_Proxy_Request_Directives g)).
    + destruct (load (_req (Handler._txn h)) node) as [r req].
      inversion Hcall; subst. split; [now split|]. now split.
    + inversion Hcall; subst. split; now split.
  - unfold proxy_request in Hcall.
    destruct (Use_Proxy_Request_Directives g).
    + destruct (load (_req (Handler._txn h)) node) as [r req].
      inversion Hcall; subst. split; [now split|]. now split.
    + inversion Hcall; subst. split; now split.
  - unfold server_response in Hcall.
    destruct (Use_Proxy_Request_Directives g).
    + destruct (load _ node) as [r rsp].
      inversion Hcall; subst. split; [now split|]. now split.
    + inversion Hcall; subst. split; now split.
  - unfold proxy_response in Hcall.
    destruct (negb (Use_Proxy_Request_Directives g)).
    + destruct (load _ node) as [r rsp].
      inversion Hcall; subst. split; [now split|]. now split.
    + inversion Hcall; subst. split; now split.
  - unfold apply_to_all_messages in Hcall.
    inversion Hcall; subst. split; [now split|]. now split.
  - unfold txn_close, unlock in Hcall.
    destruct (LoadMutex g) as [o|] eqn:Em.
    2:{ destruct (is_empty (Keys_Whitelist g) || whitelisted _ _);
          [destruct (Handler._ssn h)|]; discriminate Hcall. }
    destruct (is_empty (Keys_Whitelist g) || whitelisted _ _).
    + destruct (Handler._ssn h) as [ssn|] eqn:Es; [|discriminate Hcall].
      cbn [bind] in Hcall. destruct (Nat.eqb o me); [|discriminate Hcall].
      inversion Hcall; subst. split; [now split|].
      split; [reflexivity|].
      cbn. intros ssn' Heq. inversion Heq; subst. cbn.
      apply Forall_app. split; [now apply Hssn|].
      constructor; [exact Htxn | constructor].
    + cbn [bind] in Hcall. destruct (Nat.eqb o me); [|discriminate Hcall].
      inversion Hcall; subst. split; [now split|].
      split; [reflexivity | exact Hssn].
  - destruct (@ssn_close_registry _ _ _ _ _ _ Hcall) as (ssn & Hs & Hlist).
    unfold ssn_close, lock, unlock in Hcall.
    destruct (LoadMutex g); [discriminate Hcall|]. cbn [bind] in Hcall.
    rewrite Hs, Nat.eqb_refl in Hcall.
    assert (Hflag' : Use_Strict_Checking g' = Use_Strict_Checking g).
    { destruct (negb (is_empty (_transactions ssn))); cbn in Hcall;
        inversion Hcall; reflexivity. }
    assert (Hh' : h' = ssn_reset h).
    { destruct (negb (is_empty (_transactions ssn))); cbn in Hcall;
        inversion Hcall; reflexivity. }
    subst h'. split.
    + split; [congruence|]. rewrite Hlist.
      destruct (is_empty (_transactions ssn)); [exact Hreg|].
      apply Forall_app. split; [exact Hreg|].
      constructor; [now apply Hssn | constructor].
    + split; [exact Htxn|]. cbn. intros ssn' Heq. discriminate Heq.
Qed.

Lemma load_calls_strict (b : bool) (calls : list (nat * Call))
    (st st' : LoadState) (e : Errata.t) :
  strict_everywhere b st ->
  load_calls calls st = Ok (e, st') ->
  strict_everywhere b st'.
Proof.
  revert st e.
  induction calls as [|[me c] rest IH]; intros st e Hst; cbn [load_calls].
  - now returned.
  - unfold load_step.
    destruct (handler_call me c (globals st) (handlers st me))
      as [[[e0 g0] h0]| |] eqn:E; try discriminate.
    cbn [bind snd fst].
    destruct (load_calls rest _) as [[e1 st1]| |] eqn:E1; try discriminate.
    cbn [bind fst snd]. returned.
    destruct (@handler_call_strict b _ _ _ _ _ _ _ E (proj1 Hst) (proj2 Hst me))
      as (Hg & Hh).
    refine (IH _ _ _ E1). split; [exact Hg|].
    intros i. cbn. unfold update_handler.
    destruct (Nat.eqb i me); [exact Hh | exact (proj2 Hst i)].
Qed.

Lemma LoadState_init_strict (g : Globals) (path_of : nat -> string) :
  Forall (fun ssn => all_strict (Use_Strict_Checking g) (_transactions ssn))
    (Session_List g) ->
  strict_everywhere (Use_Strict_Checking g) (LoadState_init g path_of).
Proof.
  intros Hreg. split; [now split|]. intros i. split; [reflexivity|].
  cbn. intros ssn Heq. discriminate Heq.
Qed.

(** X4. The strict-verification flag is threaded through uniformly:
    through any load that starts with new handlers, every transaction --
    the one under construction in each handler, those attached to a session
    under construction, and those of the sessions of the registry --
    carries the flag the globals had when the load began, provided the
    registry began with such transactions only. *)
Theorem strict_flag_is_threaded (calls : list (nat * Call)) (g : Globals)
    (path_of : nat -> string) (st' : LoadState) (e : Errata.t) :
  Forall (fun ssn => all_strict (Use_Strict_Checking g) (_transactions ssn))
    (Session_List g) ->
  load_calls calls (LoadState_init g path_of) = Ok (e, st') ->
  strict_everywhere (Use_Strict_Checking g) st'.
Proof.
  intros Hreg Hload.
  exact (@load_calls_strict _ _ _ _ _ (@LoadState_init_strict g path_of Hreg)
           Hload).
Qed.

(** X18. Exactly one request directive and one response directive is
    loaded in each run mode.  With a proxy expected, [proxy_request] and
    [server_response] return an empty errata and leave the handler as it
    is, [client_request] loads the request and [proxy_response] loads the
    response; without a proxy it is the other way round.  A request load
    leaves the response as it is, and a response load leaves the request
    as it is and starts from the global transaction rules. *)
Theorem directives_by_mode (node : Node) (g : Globals)
    (h : ClientReplayFileHandler) :
  let t := Handler._txn h in
  let loaded_req := set_txn h (set_req t (snd (load (_req t) node))) in
  let loaded_rsp :=
    set_txn h
      (set_rsp t (snd (load (set_fields_rules (_rsp t) (txn_rules g)) node))) in
  (Use_Proxy_Request_Directives g = false ->
   proxy_request node g h = (Errata.empty, h) /\
   server_response node g h = (Errata.empty, h) /\
   snd (client_request node g h) = loaded_req /\
   snd (proxy_response node g h) = loaded_rsp) /\
  (Use_Proxy_Request_Directives g = true ->
   client_request node g h = (Errata.empty, h) /\
   proxy_response node g h = (Errata.empty, h) /\
   snd (proxy_request node g h) = loaded_req /\
   snd (server_response node g h) = loaded_rsp).
Proof.
  cbv zeta.
  unfold proxy_request, server_response, client_request, proxy_response.
  split; intros ->; cbn [negb];
    destruct (load (_req (Handler._txn h)) node);
    destruct (load (set_fields_rules (_rsp (Handler._txn h)) (txn_rules g)) node);
    repeat split.
Qed.

Lemma handler_call_configuration (me : nat) (c : Call) (g g' : Globals)
    (h h' : ClientReplayFileHandler) (e : Errata.t) :
  handler_call me c g h = Ok (e, g', h') -> same_configuration g g'.
Proof.
  unfold same_configuration.
  assert (Hsame : g = set_Session_List (set_LoadMutex g (LoadMutex g))
                        (Session_List g)) by now destruct g.
  destruct c; cbn [handler_call].
  - destruct (ssn_open node h). now returned.
  - unfold txn_open. destruct (negb (Errata.is_ok _)).
    + cbn. now returned.
    + unfold lock. destruct (LoadMutex g); [discriminate|]. cbn. now returned.
  - destruct (client_request node g h). now returned.
  - destruct (proxy_request node g h). now returned.
  - destruct (server_response node g h). now returned.
  - destruct (proxy_response node g h). now returned.
  - destruct (apply_to_all_messages all_headers h). now returned.
  - unfold txn_close, unlock.
    destruct (is_empty (Keys_Whitelist g) || whitelisted _ _).
    + destruct (Handler._ssn h); [|discriminate]. cbn [bind].
      destruct (LoadMutex g) as [o|]; [|discriminate].
      destruct (Nat.eqb o me); [|discriminate]. cbn. now returned.
    + cbn [bind]. destruct (LoadMutex g) as [o|]; [|discriminate].
      destruct (Nat.eqb o me); [|discriminate]. cbn. now returned.
  - unfold ssn_close, lock, unlock.
    destruct (LoadMutex g); [discriminate|]. cbn [bind].
    destruct (Handler._ssn h) as [ssn|]; [|discriminate].
    rewrite Nat.eqb_refl.
    destruct (negb (is_empty (_transactions ssn))); cbn; now returned.
Qed.

Lemma load_calls_configuration (calls : list (nat * Call))
    (st st' : LoadState) (e : Errata.t) :
  load_calls calls st = Ok (e, st') ->
  same_configuration (globals st) (globals st').
Proof.
  revert st e. induction calls as [|[me c] rest IH]; intros st e;
    cbn [load_calls].
  - returned. unfold same_configuration. now destruct (globals st').
  - unfold load_step.
    destruct (handler_call me c (globals st) (handlers st me))
      as [[[e0 g0] h0]| |] eqn:E; try discriminate.
    cbn [bind snd fst].
    destruct (load_calls rest _) as [[e1 st1]| |] eqn:E1; try discriminate.
    cbn [bind fst snd]. returned.
    pose proof (@handler_call_configuration _ _ _ _ _ _ _ E) as H0.
    pose proof (IH _ _ E1) as H1. cbn [globals] in H1.
    unfold same_configuration in *. rewrite H1. rewrite H0 at 1. reflexivity.
Qed.

(* ================================================================== *)
(** * Further properties: the session runner and the worker loop *)

Lemma is_ok_diag (e : Errata.t) (msg : string) :
  Errata.is_ok (Errata.diag e msg) = Errata.is_ok e.
Proof.
  unfold Errata.diag, Errata.is_ok. rewrite forallb_app. cbn.
  now rewrite andb_true_r.
Qed.

Lemma connect_and_run_calls (errata : Errata.t) (session : SessionClass)
    (ssn : Ssn) (real_target : IPEndpoint) :
  Errata.is_ok errata = true ->
  snd (connect_and_run errata session ssn real_target)
  = Connect session real_target
      :: (if Errata.is_ok (do_connect session real_target)
          then [RunTransactions session (_transactions ssn) real_target]
          else []) /\
  Errata.is_ok (fst (connect_and_run errata session ssn real_target))
  = Errata.is_ok (do_connect session real_target)
    && Errata.is_ok (run_transactions session (_transactions ssn) real_target).
Proof.
  intros Hok. unfold connect_and_run. rewrite is_ok_note, Hok. cbn [andb].
  destruct (Errata.is_ok (do_connect session real_target)) eqn:E; cbn [fst snd].
  - split; [reflexivity|]. now rewrite !is_ok_note, Hok, E.
  - split; [reflexivity|]. now rewrite is_ok_note, Hok, E.
Qed.

(** X6. [Run_Session] picks one runner and one target for a session:
    HTTP/2 before TLS before plain, the HTTPS target for the first two and
    the HTTP target for a plain session; a TLS runner is given the SNI of
    the session.  Unless the session is skipped (HTTP/2 without a proxy) it
    connects exactly once, to that target, and runs the transactions of the
    session there exactly when the connection succeeded.  The result is ok
    exactly when the session was skipped or both steps succeeded. *)
Theorem Run_Session_dispatch (g : Globals) (ssn : Ssn)
    (target target_https : IPEndpoint) :
  let session := runner_of ssn in
  let real_target := real_target_of ssn target target_https in
  let skipped := is_h2 ssn && Use_Proxy_Request_Directives g in
  snd (Run_Session g ssn target target_https)
  = (if skipped then []
     else Connect session real_target
            :: (if Errata.is_ok (do_connect session real_target)
                then [RunTransactions session (_transactions ssn) real_target]
                else [])) /\
  Errata.is_ok (fst (Run_Session g ssn target target_https))
  = skipped
    || (Errata.is_ok (do_connect session real_target)
        && Errata.is_ok
             (run_transactions session (_transactions ssn) real_target)).
Proof.
  cbv zeta. unfold Run_Session, runner_of, real_target_of.
  destruct (is_h2 ssn); cbn [andb orb].
  - destruct (Use_Proxy_Request_Directives g); [now split|].
    apply connect_and_run_calls. reflexivity.
  - destruct (is_tls ssn); apply connect_and_run_calls; reflexivity.
Qed.

Lemma at_index_empty (A : Type) (i : Z) :
  at_index (@nil A) i = Undefined Index_out_of_range.
Proof.
  unfold at_index. destruct (i <? 0); [reflexivity|].
  now destruct (Z.to_nat i).
Qed.

Lemma at_index_cases (A : Type) (l : list A) (i : Z) :
  (exists a : A, at_index l i = Ok a) \/
  at_index l i = Undefined Index_out_of_range.
Proof.
  unfold at_index. destruct (i <? 0); [now right|].
  destruct (nth_error l (Z.to_nat i)) as [a|]; [left; now exists a | now right].
Qed.

(** X7. The worker loop reads both target lists for every session,
    whatever its protocol: for a worker that is handed at least one
    session, [TF_Client] is defined exactly when neither list is empty, and
    it then runs every session it was handed; with an empty list the first
    session already indexes past the end. *)
Theorem TF_Client_needs_both_targets (g : Globals) (work : list Ssn) :
  work <> [] ->
  ((exists rans : list Ran,
       TF_Client g work = Ok rans /\
       List.length rans = List.length work) <->
   Target g <> [] /\ Target_Https g <> []) /\
  (Target g = [] \/ Target_Https g = [] ->
   TF_Client g work = Undefined Index_out_of_range).
Proof.
  intros Hwork.
  assert (Hfault : Target g = [] \/ Target_Https g = [] ->
                   TF_Client g work = Undefined Index_out_of_range).
  { destruct work as [|ssn rest]; [congruence|].
    unfold TF_Client. cbn [TF_Client_loop].
    intros [H|H]; rewrite H.
    - now rewrite at_index_empty.
    - rewrite at_index_empty.
      now destruct (at_index_cases (Target g) 0) as [(a & ->)| ->]. }
  split; [|exact Hfault]. split.
  - intros (rans & Hrun & _).
    split; intros H; rewrite Hfault in Hrun; auto; discriminate Hrun.
  - intros (HT & HTh).
    assert (H1 : 0 <= 0 < Z.of_nat (List.length (Target g))).
    { destruct (Target g); [congruence | cbn [List.length]; lia]. }
    assert (H2 : 0 <= 0 < Z.of_nat (List.length (Target_Https g))).
    { destruct (Target_Https g); [congruence | cbn [List.length]; lia]. }
    destruct (TF_Client_loop_indices g work H1 H2)
      as (rans & Hrun & Hssn & _).
    exists rans. split; [exact Hrun|].
    rewrite <- Hssn. now rewrite length_map.
Qed.

(* ================================================================== *)
(** * Further properties: [command_run] *)

Lemma is_ok_info (e : Errata.t) (msg : string) :
  Errata.is_ok (Errata.info e msg) = Errata.is_ok e.
Proof.
  unfold Errata.info, Errata.is_ok. rewrite forallb_app. cbn.
  now rewrite andb_true_r.
Qed.

(** X8. The exit status of [command_run] is 0 exactly when there are at
    least three arguments and the resolution of the HTTP targets, the
    resolution of the HTTPS targets and the loading of the directory all
    report ok; otherwise it is 1.  What the handler calls of the load
    reported by themselves, and what happens during dispatch, has no
    part in it. *)
Theorem command_run_status (arguments : Args) (g : Globals) (out : Outcome) :
  command_run arguments g = Ok out ->
  (status_code out = 0 <->
   (3 <= List.length (run_args arguments))%nat /\
   Errata.is_ok (fst (resolve_ips (nth 1 (run_args arguments) EmptyString)))
   = true /\
   Errata.is_ok (fst (resolve_ips (nth 2 (run_args arguments) EmptyString)))
   = true /\
   Errata.is_ok
     (fst (Load_Replay_Directory (nth 0 (run_args arguments) EmptyString)))
   = true) /\
  (status_code out <> 0 -> status_code out = 1).
Proof.
  unfold command_run.
  destruct (List.length (run_args arguments) <? 3)%nat eqn:Hargs.
  { returned. cbn [status_code failed]. apply Nat.ltb_lt in Hargs.
    split; [|reflexivity]. split; [discriminate|]. intros (H & _). lia. }
  apply Nat.ltb_ge in Hargs.
  destruct (resolve_ips (nth 1 (run_args arguments) EmptyString)) as [e1 ips1].
  cbn [fst]. rewrite is_ok_note. cbn [Errata.is_ok Errata.empty forallb andb].
  fold (Errata.is_ok e1).
  destruct (Errata.is_ok e1) eqn:Hok1; cbn [negb].
  2:{ returned. cbn [status_code failed].
      split; [|reflexivity]. split; [discriminate|].
      intros (_ & H & _). discriminate H. }
  destruct (resolve_ips (nth 2 (run_args arguments) EmptyString)) as [e2 ips2].
  cbn [fst]. rewrite !is_ok_note. cbn [Errata.is_ok Errata.empty forallb andb].
  fold (Errata.is_ok e1). fold (Errata.is_ok e2). rewrite Hok1. cbn [andb].
  destruct (Errata.is_ok e2) eqn:Hok2; cbn [negb].
  2:{ returned. cbn [status_code failed].
      split; [|reflexivity]. split; [discriminate|].
      intros (_ & _ & H & _). discriminate H. }
  destruct (Load_Replay_Directory (nth 0 (run_args arguments) EmptyString))
    as [e3 calls].
  destruct (load_calls calls _) as [[e4 st]| |]; cbn [bind]; try discriminate.
  cbn [fst]. rewrite !is_ok_note, is_ok_info, !is_ok_note.
  cbn [Errata.is_ok Errata.empty forallb andb].
  fold (Errata.is_ok e1). fold (Errata.is_ok e2). fold (Errata.is_ok e3).
  rewrite Hok1, Hok2. cbn [andb].
  destruct (Errata.is_ok e3) eqn:Hok3; cbn [negb].
  2:{ returned. cbn [status_code failed].
      split; [|reflexivity]. split; [discriminate|].
      intros (_ & _ & _ & H). discriminate H. }
  destruct (sort_and_adjust _) as [[sessions tc] mcl].
  returned. cbn [status_code].
  split; [|congruence]. split; [|reflexivity]. intros _. now repeat split.
Qed.

(** What [command_run] returns with status 0: the registry of the load,
    sorted and adjusted, the counts of that pass, and the result of the
    dispatch loops over it. *)
Lemma command_run_success (arguments : Args) (g : Globals) (out : Outcome) :
  command_run arguments g = Ok out ->
  status_code out = 0 ->
  exists (loaded : list Ssn) (errata : Errata.t),
    Session_List (out_globals out) = fst (fst (sort_and_adjust loaded)) /\
    transaction_count out = snd (fst (sort_and_adjust loaded)) /\
    max_content_length out = snd (sort_and_adjust loaded) /\
    rate_multiplier out
    = compute_rate_multiplier (rate_arg arguments)
        (Session_List (out_globals out)) (transaction_count out) /\
    let d := repeat_loop (Z.to_nat (repeat_count_of arguments))
               (Session_List (out_globals out)) (dispatch_start errata) in
    out_n_ssn out = n_ssn d /\ out_n_txn out = n_txn d /\
    assigned out = d_assigned d /\ worker_calls out = d_calls d.
Proof.
  unfold command_run.
  destruct (List.length (run_args arguments) <? 3)%nat.
  { returned. discriminate. }
  destruct (resolve_ips (nth 1 (run_args arguments) EmptyString)) as [e1 ips1].
  destruct (negb (Errata.is_ok (Errata.note Errata.empty e1))).
  { returned. discriminate. }
  destruct (resolve_ips (nth 2 (run_args arguments) EmptyString)) as [e2 ips2].
  destruct (negb (Errata.is_ok (Errata.note (Errata.note Errata.empty e1) e2))).
  { returned. discriminate. }
  destruct (Load_Replay_Directory (nth 0 (run_args arguments) EmptyString))
    as [e3 calls].
  destruct (load_calls calls _) as [[e4 st]| |]; cbn [bind]; try discriminate.
  destruct (negb (Errata.is_ok _)).
  { returned. discriminate. }
  destruct (sort_and_adjust (Session_List (globals (snd (e4, st)))))
    as [[sessions tc] mcl] eqn:Hsort.
  returned. intros _.
  exists (Session_List (globals (snd (e4, st)))). eexists.
  rewrite Hsort. cbn. repeat split.
Qed.

Lemma wrap_unsigned_add_l (a b : Z) :
  Machine.wrap_unsigned (Machine.wrap_unsigned a + b)
  = Machine.wrap_unsigned (a + b).
Proof. unfold Machine.wrap_unsigned. apply Zplus_mod_idemp_l. Qed.

Lemma wrap_unsigned_idem (a : Z) :
  Machine.wrap_unsigned (Machine.wrap_unsigned a) = Machine.wrap_unsigned a.
Proof. unfold Machine.wrap_unsigned. apply Zmod_mod. Qed.

Lemma dispatch_sessions_counts (sessions : list Ssn) (d : Dispatch) :
  Machine.wrap_unsigned (n_ssn d) = n_ssn d ->
  Machine.wrap_unsigned (n_txn d) = n_txn d ->
  n_ssn (dispatch_sessions sessions d)
  = Machine.wrap_unsigned (n_ssn d + Z.of_nat (List.length sessions)) /\
  n_txn (dispatch_sessions sessions d)
  = Machine.wrap_unsigned (n_txn d + total_transactions sessions).
Proof.
  unfold dispatch_sessions. revert d.
  induction sessions as [|ssn rest IH]; intros d H1 H2;
    cbn [fold_left List.length total_transactions fold_right].
  - now rewrite !Z.add_0_r, H1, H2.
  - fold (total_transactions rest).
    destruct (IH (dispatch_one ssn d)) as [-> ->].
    + unfold dispatch_one. destruct (get_worker (d_calls d)); cbn [n_ssn];
        apply wrap_unsigned_idem.
    + unfold dispatch_one. destruct (get_worker (d_calls d)); cbn [n_txn];
        apply wrap_unsigned_idem.
    + assert (Hs : n_ssn (dispatch_one ssn d)
                   = Machine.wrap_unsigned (n_ssn d + 1)).
      { unfold dispatch_one. now destruct (get_worker (d_calls d)). }
      assert (Ht : n_txn (dispatch_one ssn d)
                   = Machine.wrap_unsigned
                       (n_txn d + Z.of_nat (List.length (_transactions ssn)))).
      { unfold dispatch_one. now destruct (get_worker (d_calls d)). }
      rewrite Hs, Ht, !wrap_unsigned_add_l. split; f_equal; lia.
Qed.

Lemma repeat_loop_counts (count : nat) (sessions : list Ssn) (d : Dispatch) :
  Machine.wrap_unsigned (n_ssn d) = n_ssn d ->
  Machine.wrap_unsigned (n_txn d) = n_txn d ->
  n_ssn (repeat_loop count sessions d)
  = Machine.wrap_unsigned
      (n_ssn d + Z.of_nat (count * List.length sessions)) /\
  n_txn (repeat_loop count sessions d)
  = Machine.wrap_unsigned
      (n_txn d + Z.of_nat count * total_transactions sessions).
Proof.
  revert d. induction count as [|n IH]; intros d H1 H2; cbn [repeat_loop].
  - cbn [Nat.mul Z.of_nat]. now rewrite Z.mul_0_l, !Z.add_0_r, H1, H2.
  - destruct (dispatch_sessions_counts sessions d H1 H2) as [Hs Ht].
    destruct (IH (dispatch_sessions sessions d)) as [-> ->].
    + rewrite Hs. apply wrap_unsigned_idem.
    + rewrite Ht. apply wrap_unsigned_idem.
    + rewrite Hs, Ht, !wrap_unsigned_add_l. split; f_equal; lia.
Qed.

Lemma dispatch_sessions_assigned (sessions : list Ssn) (d : Dispatch) :
  List.length (d_assigned (dispatch_sessions sessions d))
  = (List.length (d_assigned d)
     + List.length (filter worker_ok (seq (d_calls d) (List.length sessions))))%nat.
Proof.
  unfold dispatch_sessions. revert d.
  induction sessions as [|ssn rest IH]; intros d;
    cbn [fold_left List.length seq filter].
  - lia.
  - rewrite IH. unfold dispatch_one, worker_ok.
    destruct (get_worker (d_calls d)); cbn [d_assigned d_calls List.length].
    + rewrite length_app. cbn [List.length]. lia.
    + lia.
Qed.

Lemma repeat_loop_assigned (count : nat) (sessions : list Ssn) (d : Dispatch) :
  List.length (d_assigned (repeat_loop count sessions d))
  = (List.length (d_assigned d)
     + List.length
         (filter worker_ok
            (seq (d_calls d) (count * List.length sessions))))%nat.
Proof.
  revert d. induction count as [|n IH]; intros d; cbn [repeat_loop Nat.mul].
  - cbn. lia.
  - rewrite IH, dispatch_sessions_assigned, dispatch_sessions_calls.
    rewrite seq_app, filter_app, length_app. lia.
Qed.

Lemma total_transactions_map_start (f : Ssn -> Z) (l : list Ssn) :
  total_transactions (map (fun s => set_start s (f s)) l)
  = total_transactions l.
Proof.
  induction l as [|s l IH]; cbn; [reflexivity|].
  fold (total_transactions (map (fun s => set_start s (f s)) l)).
  fold (total_transactions l). now rewrite IH.
Qed.

Lemma sort_and_adjust_total (sessions : list Ssn) :
  total_transactions (fst (fst (sort_and_adjust sessions)))
  = total_transactions sessions.
Proof.
  unfold sort_and_adjust. rewrite adjust_loop_sessions.
  rewrite (total_transactions_map_start
             (fun s => Machine.wrap64 (_start s - _))).
  apply total_transactions_perm, list_sort_perm.
Qed.

(** X9. The totals of a run that ends with status 0, for [n] repetitions
    over the sorted batch: the reported session count is [n] times the
    number of sessions and the reported transaction count [n] times the
    number of transactions of the batch, both as [unsigned]; the parsed
    transaction count is the number of transactions of the batch as [int];
    [get_worker] is called once per session and repetition, and the
    sessions assigned to a worker are as many as the calls that yielded
    one. *)
Theorem dispatch_totals (arguments : Args) (g : Globals) (out : Outcome) :
  command_run arguments g = Ok out ->
  status_code out = 0 ->
  let sessions := Session_List (out_globals out) in
  let n := Z.to_nat (repeat_count_of arguments) in
  out_n_ssn out
  = Machine.wrap_unsigned (Z.of_nat (n * List.length sessions)) /\
  out_n_txn out
  = Machine.wrap_unsigned (Z.of_nat n * total_transactions sessions) /\
  transaction_count out = Machine.wrap_int (total_transactions sessions) /\
  worker_calls out = (n * List.length sessions)%nat /\
  List.length (assigned out)
  = List.length (filter worker_ok (seq 0 (worker_calls out))).
Proof.
  intros Hrun Hstatus. cbv zeta.
  destruct (command_run_success _ _ Hrun Hstatus)
    as (loaded & errata & Hlist & Htc & _ & _ & Hn & Ht & Ha & Hc).
  rewrite Hn, Ht, Ha, Hc, Htc.
  destruct (repeat_loop_counts (Z.to_nat (repeat_count_of arguments))
              (Session_List (out_globals out)) (dispatch_start errata)
              eq_refl eq_refl) as [-> ->].
  rewrite repeat_loop_calls, repeat_loop_assigned.
  cbn [dispatch_start n_ssn n_txn d_calls d_assigned List.length Nat.add Z.add].
  repeat split.
  rewrite sort_and_adjust_count, Hlist, sort_and_adjust_total. reflexivity.
Qed.

Lemma dispatch_sessions_available (sessions : list Ssn) (d : Dispatch) :
  (forall k : nat, get_worker k <> None) ->
  map snd (d_assigned (dispatch_sessions sessions d))
  = map snd (d_assigned d) ++ sessions /\
  map (fun p => Some (fst p)) (d_assigned (dispatch_sessions sessions d))
  = map (fun p => Some (fst p)) (d_assigned d)
    ++ map get_worker (seq (d_calls d) (List.length sessions)) /\
  d_errata (dispatch_sessions sessions d) = d_errata d.
Proof.
  intros Hall. unfold dispatch_sessions. revert d.
  induction sessions as [|ssn rest IH]; intros d;
    cbn [fold_left List.length seq map].
  - now rewrite !app_nil_r.
  - destruct (IH (dispatch_one ssn d)) as (-> & -> & ->).
    unfold dispatch_one.
    destruct (get_worker (d_calls d)) as [w|] eqn:E; [|now apply Hall in E].
    cbn [d_assigned d_calls d_errata].
    rewrite !map_app, <- !app_assoc. cbn [map app fst snd].
    repeat split.
Qed.

Lemma repeat_loop_available (count : nat) (sessions : list Ssn) (d : Dispatch) :
  (forall k : nat, get_worker k <> None) ->
  map snd (d_assigned (repeat_loop count sessions d))
  = map snd (d_assigned d) ++ List.concat (repeat sessions count) /\
  map (fun p => Some (fst p)) (d_assigned (repeat_loop count sessions d))
  = map (fun p => Some (fst p)) (d_assigned d)
    ++ map get_worker (seq (d_calls d) (count * List.length sessions)) /\
  d_errata (repeat_loop count sessions d) = d_errata d.
Proof.
  intros Hall. revert d.
  induction count as [|n IH]; intros d;
    cbn [repeat_loop repeat List.concat Nat.mul seq map].
  - now rewrite !app_nil_r.
  - destruct (IH (dispatch_sessions sessions d)) as (-> & -> & ->).
    destruct (dispatch_sessions_available sessions d Hall) as (-> & -> & ->).
    rewrite dispatch_sessions_calls, seq_app, map_app, <- !app_assoc.
    repeat split.
Qed.

(** X10. When [get_worker] always yields a worker, a run that ends with
    status 0 assigns every session of the sorted batch, in that order,
    once in every repetition, each to the worker that the call made for it
    yielded, and the dispatch adds nothing to the errata but the final
    report. *)
Theorem every_session_is_assigned (arguments : Args) (g : Globals)
    (out : Outcome) :
  (forall k : nat, get_worker k <> None) ->
  command_run arguments g = Ok out ->
  status_code out = 0 ->
  let sessions := Session_List (out_globals out) in
  let n := Z.to_nat (repeat_count_of arguments) in
  map snd (assigned out) = List.concat (repeat sessions n) /\
  map (fun p => Some (fst p)) (assigned out)
  = map get_worker (seq 0 (n * List.length sessions)).
Proof.
  intros Hall Hrun Hstatus. cbv zeta.
  destruct (command_run_success _ _ Hrun Hstatus)
    as (loaded & errata & _ & _ & _ & _ & _ & _ & Ha & _).
  rewrite Ha.
  destruct (repeat_loop_available (Z.to_nat (repeat_count_of arguments))
              (Session_List (out_globals out)) (dispatch_start errata) Hall)
    as (-> & -> & _).
  split; reflexivity.
Qed.

(** X11. A load that registers no session is not an error for
    [command_run]: a run that ends with status 0 on an empty registry
    calls [get_worker] never, assigns nothing, reports 0 sessions and 0
    transactions, and its rate multiplier is 0 whatever the rate argument,
    so the start of a last session is never read. *)
Theorem empty_batch_is_not_an_error (arguments : Args) (g : Globals)
    (out : Outcome) :
  command_run arguments g = Ok out ->
  status_code out = 0 ->
  Session_List (out_globals out) = [] ->
  worker_calls out = 0%nat /\ assigned out = [] /\
  out_n_ssn out = 0 /\ out_n_txn out = 0 /\
  transaction_count out = 0 /\ max_content_length out = 0 /\
  rate_multiplier out = Machine.f_zero.
Proof.
  intros Hrun Hstatus Hempty.
  destruct (command_run_success _ _ Hrun Hstatus)
    as (loaded & errata & Hlist & Htc & Hmcl & Hrm & Hn & Ht & Ha & Hc).
  assert (Hloaded : loaded = []).
  { destruct loaded as [|s l]; [reflexivity|].
    assert (Hne : s :: l <> []) by discriminate.
    pose proof (sort_and_adjust_nonempty Hne) as H.
    rewrite <- Hlist, Hempty in H. discriminate H. }
  subst loaded. rewrite Hempty in *.
  assert (Hloop : forall count d, repeat_loop count [] d = d).
  { induction count as [|n IH]; intros d; [reflexivity | apply IH]. }
  rewrite Hloop in Hn, Ht, Ha, Hc.
  rewrite Hn, Ht, Ha, Hc, Htc, Hmcl, Hrm.
  unfold compute_rate_multiplier. cbn [is_empty negb andb].
  rewrite andb_false_r. repeat split.
Qed.

Lemma max_content_bounds (m : Z) (txns : list Txn) :
  m <= max_content m txns /\
  Forall (fun txn => _content_size (_req txn) <= max_content m txns) txns /\
  (max_content m txns = m \/
   Exists (fun txn => _content_size (_req txn) = max_content m txns) txns).
Proof.
  unfold max_content. revert m.
  induction txns as [|txn rest IH]; intros m; cbn [fold_left].
  - split; [lia|]. split; [constructor | now left].
  - destruct (IH (Z.max m (_content_size (_req txn)))) as (H1 & H2 & H3).
    split; [lia|]. split.
    + constructor; [lia | exact H2].
    + destruct H3 as [H3|H3].
      * destruct (Z.max_spec m (_content_size (_req txn))) as [[_ Hm]|[_ Hm]].
        -- right. apply Exists_cons_hd. congruence.
        -- left. congruence.
      * right. now apply Exists_cons_tl.
Qed.

Lemma adjust_loop_max_content (offset_time : Z) (l : list Ssn) (tc mcl : Z) :
  let result := snd (adjust_loop offset_time l tc mcl) in
  mcl <= result /\
  Forall (fun s => Forall (fun txn => _content_size (_req txn) <= result)
                     (_transactions s)) l /\
  (result = mcl \/
   Exists (fun s => Exists (fun txn => _content_size (_req txn) = result)
                      (_transactions s)) l).
Proof.
  revert tc mcl. induction l as [|s l IH]; intros tc mcl; cbn [adjust_loop].
  - cbn. split; [lia|]. split; [constructor | now left].
  - specialize (IH
      (Machine.wrap_int (tc + Z.of_nat (List.length (_transactions s))))
      (max_content mcl (_transactions s))).
    destruct (adjust_loop offset_time l _ _) as [[rest' tc'] mcl'].
    cbn [snd] in *. destruct IH as (H1 & H2 & H3).
    destruct (max_content_bounds mcl (_transactions s)) as (B1 & B2 & B3).
    split; [lia|]. split.
    + constructor; [|exact H2].
      eapply Forall_impl; [|exact B2]. cbv beta. intros txn Htxn. lia.
    + destruct H3 as [H3|H3].
      * destruct B3 as [B3|B3].
        -- left. congruence.
        -- right. apply Exists_cons_hd. now rewrite H3.
      * right. now apply Exists_cons_tl.
Qed.

(** X12. The maximal content length that [command_run] hands to
    [HttpHeader::set_max_content_length] is large enough for every request
    of the batch and no larger than needed: it is at least 0 and at least
    the content size of the request of every transaction of every session,
    and it is 0 or the content size of one of these requests. *)
Theorem max_content_length_covers_requests (sessions : list Ssn) :
  let result := snd (sort_and_adjust sessions) in
  0 <= result /\
  (forall (s : Ssn) (txn : Txn),
      In s sessions -> In txn (_transactions s) ->
      _content_size (_req txn) <= result) /\
  (result = 0 \/
   exists (s : Ssn) (txn : Txn),
     In s sessions /\ In txn (_transactions s) /\
     _content_size (_req txn) = result).
Proof.
  cbv zeta. unfold sort_and_adjust.
  pose proof (list_sort_perm session_start_compare sessions) as Hperm.
  destruct (adjust_loop_max_content
              (if negb (is_empty (list_sort session_start_compare sessions))
               then front_start (list_sort session_start_compare sessions)
               else 0)
              (list_sort session_start_compare sessions) 0 0)
    as (H1 & H2 & H3).
  split; [exact H1|]. split.
  - intros s txn Hs Htxn.
    apply (Permutation_in _ (Permutation_sym Hperm)) in Hs.
    rewrite Forall_forall in H2. specialize (H2 s Hs).
    rewrite Forall_forall in H2. now apply H2.
  - destruct H3 as [H3|H3]; [now left|]. right.
    apply Exists_exists in H3. destruct H3 as (s & Hs & Hex).
    apply Exists_exists in Hex. destruct Hex as (txn & Htxn & Heq).
    exists s, txn. split; [|now split].
    now apply (Permutation_in _ Hperm).
Qed.

Lemma sort_insert_recorded_at (start : Z) (x : Ssn) (l : list Ssn) :
  recorded_at start (sort_insert session_start_compare x l)
  = recorded_at start (x :: l).
Proof.
  unfold recorded_at.
  induction l as [|y l IH]; cbn [sort_insert]; [reflexivity|].
  unfold session_start_compare at 1.
  destruct (_start y <? _start x) eqn:E; [|reflexivity].
  apply Z.ltb_lt in E. cbn [filter] in *. rewrite IH.
  destruct (_start x =? start) eqn:Ex; [|reflexivity].
  apply Z.eqb_eq in Ex.
  destruct (_start y =? start) eqn:Ey; [|reflexivity].
  apply Z.eqb_eq in Ey. lia.
Qed.

(** X13. The order of [session_start_compare] is strict, so the sort keeps
    the sessions of one start time in the order in which they were
    registered: for every start time, the sessions recorded at it appear in
    the sorted list in their order in the registry; and the comparison is
    irreflexive and transitive, as the sort requires. *)
Theorem sort_keeps_ties_in_order (sessions : list Ssn) (start : Z) :
  recorded_at start (list_sort session_start_compare sessions)
  = recorded_at start sessions /\
  (forall a : Ssn, session_start_compare a a = false) /\
  (forall a b c : Ssn,
      session_start_compare a b = true ->
      session_start_compare b c = true ->
      session_start_compare a c = true).
Proof.
  split; [|split].
  - induction sessions as [|x l IH]; [reflexivity|].
    cbn [list_sort fold_right]. fold (list_sort session_start_compare l).
    rewrite sort_insert_recorded_at. unfold recorded_at in *.
    cbn [filter]. now rewrite IH.
  - intros a. unfold session_start_compare. apply Z.ltb_irrefl.
  - unfold session_start_compare. intros a b c H1 H2.
    apply Z.ltb_lt in H1, H2. apply Z.ltb_lt. lia.
Qed.

(** X14. A repeat count that is not positive replays nothing, and it is
    not an error: when the argument of [--repeat] reads as 0 or less (for
    [atoi] also a text that is not a number), a run that ends with status 0
    has called [get_worker] never, assigned no session and reports 0
    sessions and 0 transactions. *)
Theorem nonpositive_repeat_replays_nothing (arguments : Args) (g : Globals)
    (out : Outcome) :
  command_run arguments g = Ok out ->
  status_code out = 0 ->
  repeat_count_of arguments <= 0 ->
  worker_calls out = 0%nat /\ assigned out = [] /\
  out_n_ssn out = 0 /\ out_n_txn out = 0.
Proof.
  intros Hrun Hstatus Hrepeat.
  destruct (command_run_success _ _ Hrun Hstatus)
    as (loaded & errata & _ & _ & _ & _ & Hn & Ht & Ha & Hc).
  rewrite Hn, Ht, Ha, Hc.
  replace (Z.to_nat (repeat_count_of arguments)) with 0%nat by lia.
  repeat split.
Qed.

(* ================================================================== *)
(** * Further properties: pacing *)

Lemma digits2_upper (p : positive) :
  forall k : Z, 0 <= k -> Z.pos p < 2 ^ k -> Z.pos (digits2_pos p) <= k.
Proof.
  induction p as [p IH|p IH|]; intros k Hk Hp; cbn [digits2_pos].
  - assert (1 <= k).
    { destruct (Z.eq_dec k 0) as [->|]; [cbn in Hp; lia | lia]. }
    replace k with (Z.succ (k - 1)) in Hp by lia.
    rewrite Z.pow_succ_r in Hp by lia.
    specialize (IH (k - 1)). lia.
  - assert (1 <= k).
    { destruct (Z.eq_dec k 0) as [->|]; [cbn in Hp; lia | lia]. }
    replace k with (Z.succ (k - 1)) in Hp by lia.
    rewrite Z.pow_succ_r in Hp by lia.
    specialize (IH (k - 1)). lia.
  - destruct (Z.eq_dec k 0) as [->|]; [cbn in Hp; lia | lia].
Qed.

Lemma digits2_lower (p : positive) : Z.pos p < 2 ^ Z.pos (digits2_pos p).
Proof.
  induction p as [p IH|p IH|]; cbn [digits2_pos].
  - rewrite Pos2Z.inj_succ, Z.pow_succ_r by lia. lia.
  - rewrite Pos2Z.inj_succ, Z.pow_succ_r by lia. lia.
  - cbn. lia.
Qed.

Lemma digits2_iter_xO (m p : positive) :
  digits2_pos (Pos.iter xO m p) = (digits2_pos m + p)%positive.
Proof.
  induction p as [|p IH] using Pos.peano_ind.
  - cbn. now rewrite Pos.add_1_r.
  - rewrite Pos.iter_succ. cbn [digits2_pos]. rewrite IH. lia.
Qed.

Lemma shr_1_bounds (mrs : shr_record) :
  0 <= shr_m mrs -> 0 <= shr_m (shr_1 mrs) <= shr_m mrs.
Proof.
  destruct mrs as [m r s]. cbn [shr_m].
  destruct m as [|p|p]; [cbn; lia| |lia].
  intros _. destruct p; cbn; lia.
Qed.

Lemma iter_shr_1_bounds (p : positive) :
  forall mrs : shr_record,
    0 <= shr_m mrs -> 0 <= shr_m (iter_pos shr_1 p mrs) <= shr_m mrs.
Proof.
  induction p as [p IH|p IH|]; intros mrs H; cbn [iter_pos].
  - pose proof (@shr_1_bounds mrs H) as H1.
    pose proof (IH (shr_1 mrs) (proj1 H1)) as H2.
    pose proof (IH _ (proj1 H2)) as H3. lia.
  - pose proof (IH mrs H) as H2.
    pose proof (IH _ (proj1 H2)) as H3. lia.
  - now apply shr_1_bounds.
Qed.

Lemma shr_fexp_bounds (m e : Z) (l : location) :
  0 <= m ->
  0 <= shr_m (fst (shr_fexp 24 128 m e l)) <= m /\
  snd (shr_fexp 24 128 m e l) = Z.max e (fexp 24 128 (Zdigits2 m + e)).
Proof.
  intros Hm. unfold shr_fexp, shr.
  assert (Hrec : shr_m (shr_record_of_loc m l) = m).
  { destruct l as [|[| |]]; reflexivity. }
  destruct (fexp 24 128 (Zdigits2 m + e) - e) as [|p|p] eqn:E; cbn [fst snd].
  - rewrite Hrec. lia.
  - pose proof (@iter_shr_1_bounds p (shr_record_of_loc m l)) as H.
    rewrite Hrec in H. specialize (H Hm). lia.
  - rewrite Hrec. lia.
Qed.

Lemma round_nearest_even_bounds (m : Z) (l : location) :
  m <= round_nearest_even m l <= m + 1.
Proof.
  destruct l as [|[| |]]; cbn; try lia.
  destruct (Z.even m); lia.
Qed.

Lemma Zdigits2_upper (m k : Z) :
  0 <= k -> 0 <= m < 2 ^ k -> Zdigits2 m <= k.
Proof.
  intros Hk Hm. destruct m as [|p|p]; cbn; [lia| |lia].
  apply digits2_upper; lia.
Qed.

Lemma binary_round_aux_finite (s : bool) (mz : positive) (ez : Z) :
  Z.pos (digits2_pos mz) <= 64 -> ez <= 0 ->
  is_finite (binary_round_aux 24 128 s (Z.pos mz) ez loc_Exact) = true.
Proof.
  intros Hd He. unfold binary_round_aux.
  pose proof (@shr_fexp_bounds (Z.pos mz) ez loc_Exact ltac:(lia)) as [Hm1 He1].
  destruct (shr_fexp 24 128 (Z.pos mz) ez loc_Exact) as [mrs' e'].
  cbn [fst snd] in Hm1, He1.
  pose proof (round_nearest_even_bounds (shr_m mrs') (loc_of_shr_record mrs'))
    as Hr.
  set (m1 := round_nearest_even (shr_m mrs') (loc_of_shr_record mrs')) in *.
  pose proof (@shr_fexp_bounds m1 e' loc_Exact ltac:(lia)) as [Hm2 He2].
  destruct (shr_fexp 24 128 m1 e' loc_Exact) as [mrs'' e''].
  cbn [fst snd] in Hm2, He2.
  pose proof (digits2_lower mz) as Hlow.
  assert (Hdig : Zdigits2 m1 <= Z.pos (digits2_pos mz) + 1).
  { apply Zdigits2_upper; [lia|].
    rewrite Z.pow_add_r, Z.pow_1_r by lia. lia. }
  cbn [Zdigits2] in He1. unfold fexp, emin in He1, He2.
  destruct (shr_m mrs'') as [|p|p]; [reflexivity| |lia].
  assert (He'' : e'' <= 128 - 24) by lia.
  apply Z.leb_le in He''. now rewrite He''.
Qed.

Lemma f32_of_u64_finite (z : Z) :
  0 <= z < 2 ^ 64 -> is_finite (f32_of_u64 z) = true.
Proof.
  intros Hz. unfold f32_of_u64, binary_normalize.
  destruct z as [|m|m]; [reflexivity| |lia].
  unfold binary_round.
  assert (Hd : Z.pos (digits2_pos m) <= 64) by (apply digits2_upper; lia).
  unfold shl_align, fexp, emin.
  destruct (Z.max (Z.pos (digits2_pos m) + 0 - 24) (3 - 128 - 24) - 0)
    as [|p|p] eqn:E.
  - apply binary_round_aux_finite; lia.
  - apply binary_round_aux_finite; lia.
  - apply binary_round_aux_finite.
    + rewrite digits2_iter_xO. lia.
    + lia.
Qed.

Lemma f32_mul_zero (x : spec_float) :
  is_finite x = true ->
  u64_of_f32 (f32_mul Machine.f_zero x) = Some 0.
Proof. destruct x; [reflexivity|discriminate|discriminate|reflexivity]. Qed.

Lemma nexttime_not_finite (rate_multiplier : spec_float)
    (start firsttime : Z) :
  not_finite rate_multiplier = true ->
  nexttime rate_multiplier start firsttime = None.
Proof.
  unfold nexttime. intros H.
  destruct rate_multiplier; try discriminate H;
    destruct (f32_of_u64 start); reflexivity.
Qed.

(** X15. Without pacing every session is scheduled at the baseline: when
    there is no rate argument, or it reads as 0, the scheduled time of a
    session is the baseline of its repetition whatever its start, so no
    sleep is made once the clock has reached the baseline. *)
Theorem no_rate_no_pacing (rate_arg : list string) (sessions : list Ssn)
    (transaction_count start firsttime : Z) :
  List.length rate_arg <> 1%nat \/ Text.atoi (hd EmptyString rate_arg) = 0 ->
  0 <= start < 2 ^ 64 ->
  0 <= firsttime < 2 ^ 64 ->
  nexttime (compute_rate_multiplier rate_arg sessions transaction_count)
    start firsttime = Some firsttime /\
  (forall sleep_limit curtime : Z,
      firsttime <= curtime ->
      usleep_argument sleep_limit firsttime curtime = None).
Proof.
  intros Hrate Hstart Hfirst.
  assert (Hzero : compute_rate_multiplier rate_arg sessions transaction_count
                  = Machine.f_zero).
  { unfold compute_rate_multiplier.
    destruct (Nat.eqb (List.length rate_arg) 1) eqn:E; [|reflexivity].
    destruct (negb (is_empty sessions)); [|reflexivity]. cbn [andb].
    apply Nat.eqb_eq in E. destruct Hrate as [H|H]; [contradiction|].
    now rewrite H. }
  split.
  - rewrite Hzero. unfold nexttime.
    rewrite f32_mul_zero by now apply f32_of_u64_finite.
    f_equal. apply wrap64_small. lia.
  - intros sleep_limit curtime Hcur. unfold usleep_argument.
    destruct (firsttime >? curtime) eqn:E; [|reflexivity].
    apply Z.gtb_lt in E. lia.
Qed.

(** X16. With a nonzero target rate and a non-empty batch whose sessions
    all have the same recorded start, the rate multiplier is not a finite
    number, and the scheduled time of every session of the batch is the
    conversion of a value that is not a finite number to [uint64_t], which
    is undefined, whatever the baseline. *)
Theorem equal_starts_schedule_undefined (r : string) (sessions : list Ssn)
    (recorded firsttime : Z) :
  sessions <> [] ->
  0 <= recorded < 2 ^ 64 ->
  Forall (fun s => _start s = recorded) sessions ->
  Text.atoi r <> 0 ->
  let sorted := fst (fst (sort_and_adjust sessions)) in
  let transaction_count := snd (fst (sort_and_adjust sessions)) in
  Forall
    (fun s =>
       nexttime (compute_rate_multiplier [r] sorted transaction_count)
         (_start s) firsttime = None)
    sorted.
Proof.
  intros Hne Hrec Hsame Hrate. cbv zeta.
  assert (Hrange : Forall (fun s => 0 <= _start s < 2 ^ 64) sessions).
  { eapply Forall_impl; [|exact Hsame]. cbv beta. intros s ->. exact Hrec. }
  pose proof (sort_and_adjust_nonempty Hne) as Hnonempty.
  destruct (back_start_adjusted Hne Hrange)
    as (earliest & latest & Hin1 & Hin2 & _ & Hspan).
  assert (Hback : back_start (fst (fst (sort_and_adjust sessions))) = 0).
  { rewrite Hspan.
    apply in_map_iff in Hin1. destruct Hin1 as (s1 & <- & Hs1).
    apply in_map_iff in Hin2. destruct Hin2 as (s2 & <- & Hs2).
    rewrite Forall_forall in Hsame.
    rewrite (Hsame s1 Hs1), (Hsame s2 Hs2). lia. }
  assert (Hinf : not_finite
                   (compute_rate_multiplier [r]
                      (fst (fst (sort_and_adjust sessions)))
                      (snd (fst (sort_and_adjust sessions)))) = true).
  { unfold compute_rate_multiplier. rewrite Hnonempty.
    cbn [List.length Nat.eqb andb negb hd].
    apply Z.eqb_neq in Hrate. rewrite Hrate.
    unfold rate_divisor. rewrite Hback, Z.mul_0_r.
    apply div_by_zero_not_finite. }
  apply Forall_forall. intros s _. now apply nexttime_not_finite.
Qed.

Lemma wrap_unsigned_le (z : Z) :
  0 <= z -> 0 <= Machine.wrap_unsigned z <= z.
Proof.
  intros Hz. unfold Machine.wrap_unsigned. split.
  - apply Z.mod_pos_bound. lia.
  - apply Z.mod_le; lia.
Qed.

Lemma sleep_limit_of_nonneg (arguments : Args) : 0 <= sleep_limit_of arguments.
Proof.
  unfold sleep_limit_of.
  destruct (Nat.eqb (List.length (sleep_limit_arg arguments)) 1); [|lia].
  unfold Machine.wrap64. apply Z.mod_pos_bound. lia.
Qed.

(** X17. The sleep before a session is bounded: when the scheduler
    sleeps, the argument of [usleep] is at most the sleep limit and at most
    the time left until the scheduled time; without a [--sleep-limit]
    argument the limit is 500000 and the sleep is the smaller of 500000 and
    the time left, which is not 0. *)
Theorem sleep_is_bounded (arguments : Args) (next curtime d : Z) :
  0 <= curtime ->
  next < 2 ^ 64 ->
  usleep_argument (sleep_limit_of arguments) next curtime = Some d ->
  0 <= d <= sleep_limit_of arguments /\
  d <= next - curtime /\
  (sleep_limit_arg arguments = [] ->
   d = Z.min 500000 (next - curtime) /\ 0 < d).
Proof.
  intros Hcur Hnext. unfold usleep_argument.
  destruct (next >? curtime) eqn:E; [|discriminate].
  apply Z.gtb_lt in E. intros H. inversion H as [Hd]. clear H.
  rewrite (wrap64_small (z := next - curtime)) by lia.
  pose proof (sleep_limit_of_nonneg arguments) as Hlimit.
  pose proof (wrap_unsigned_le
                (z := Z.min (sleep_limit_of arguments) (next - curtime))
                ltac:(lia)) as Hw.
  split; [lia|]. split; [lia|].
  intros Hnone. unfold sleep_limit_of. rewrite Hnone. cbn [List.length Nat.eqb].
  unfold Machine.wrap_unsigned. rewrite Z.mod_small; lia.
Qed.

(* ================================================================== *)
(** * Further properties: from the command line to the dispatch *)

(** A run that ends with status 0 has loaded the directory with the
    configured globals, and works on the registry of that load. *)
Lemma command_run_load (arguments : Args) (g : Globals) (out : Outcome) :
  command_run arguments g = Ok out ->
  status_code out = 0 ->
  exists (e : Errata.t) (st : LoadState) (errata : Errata.t),
    load_calls
      (snd (Load_Replay_Directory (nth 0 (run_args arguments) EmptyString)))
      (LoadState_init (configured arguments g) file_path) = Ok (e, st) /\
    out_globals out
    = set_Session_List (globals st)
        (fst (fst (sort_and_adjust (Session_List (globals st))))) /\
    assigned out
    = d_assigned
        (repeat_loop (Z.to_nat (repeat_count_of arguments))
           (Session_List (out_globals out)) (dispatch_start errata)).
Proof.
  unfold command_run, configured.
  destruct (List.length (run_args arguments) <? 3)%nat.
  { returned. discriminate. }
  destruct (resolve_ips (nth 1 (run_args arguments) EmptyString)) as [e1 ips1].
  destruct (negb (Errata.is_ok (Errata.note Errata.empty e1))).
  { returned. discriminate. }
  destruct (resolve_ips (nth 2 (run_args arguments) EmptyString)) as [e2 ips2].
  destruct (negb (Errata.is_ok (Errata.note (Errata.note Errata.empty e1) e2))).
  { returned. discriminate. }
  destruct (Load_Replay_Directory (nth 0 (run_args arguments) EmptyString))
    as [e3 calls].
  cbn [snd Use_Strict_Checking Keys_Whitelist LoadMutex Session_List Target
       Target_Https Use_Proxy_Request_Directives txn_rules].
  destruct (load_calls calls _) as [[e4 st]| |]; cbn [bind]; try discriminate.
  destruct (negb (Errata.is_ok _)).
  { returned. discriminate. }
  destruct (sort_and_adjust (Session_List (globals (snd (e4, st)))))
    as [[sessions tc] mcl] eqn:Hsort.
  returned. intros _.
  exists e4, st. eexists. split; [reflexivity|].
  cbn [snd] in Hsort. rewrite Hsort. cbn. split; reflexivity.
Qed.

(** X19. What a run that ends with status 0 leaves in the globals: the
    strict flag and the proxy-request flag are raised by their arguments
    and never lowered, the keys of the command line are added to the key
    list, the resolved endpoints are added to the two target lists, and the
    load lock is as the load left it; the load itself changes none of
    these but the lock. *)
Theorem command_run_configures_globals (arguments : Args) (g : Globals)
    (out : Outcome) :
  command_run arguments g = Ok out ->
  status_code out = 0 ->
  let g' := out_globals out in
  Use_Strict_Checking g' = strict arguments || Use_Strict_Checking g /\
  Use_Proxy_Request_Directives g'
  = no_proxy arguments || Use_Proxy_Request_Directives g /\
  Keys_Whitelist g' = Keys_Whitelist g ++ keys_arg arguments /\
  Target g'
  = Target g ++ snd (resolve_ips (nth 1 (run_args arguments) EmptyString)) /\
  Target_Https g'
  = Target_Https g
    ++ snd (resolve_ips (nth 2 (run_args arguments) EmptyString)) /\
  txn_rules g' = txn_rules g.
Proof.
  intros Hrun Hstatus. cbv zeta.
  destruct (command_run_load _ _ Hrun Hstatus)
    as (e & st & errata & Hload & -> & _).
  pose proof (load_calls_configuration _ _ Hload) as Hsame.
  unfold same_configuration in Hsame. cbn [globals LoadState_init] in Hsame.
  rewrite Hsame. cbn. repeat split.
Qed.

Lemma sort_and_adjust_transactions (P : list Txn -> Prop)
    (sessions : list Ssn) :
  Forall (fun s => P (_transactions s)) sessions ->
  Forall (fun s => P (_transactions s)) (fst (fst (sort_and_adjust sessions))).
Proof.
  intros H. unfold sort_and_adjust. rewrite adjust_loop_sessions.
  rewrite Forall_map. cbn [_transactions set_start].
  exact (Permutation_Forall
           (Permutation_sym (list_sort_perm session_start_compare sessions)) H).
Qed.

(** X20. [--strict] reaches every transaction that is replayed: after a
    run that began with an empty registry and ends with status 0, every
    transaction of every session of the batch carries the strict flag of
    the command line (or the one that was already set). *)
Theorem strict_reaches_every_transaction (arguments : Args) (g : Globals)
    (out : Outcome) :
  Session_List g = [] ->
  command_run arguments g = Ok out ->
  status_code out = 0 ->
  Forall
    (fun ssn =>
       all_strict (strict arguments || Use_Strict_Checking g)
         (_transactions ssn))
    (Session_List (out_globals out)).
Proof.
  intros Hempty Hrun Hstatus.
  destruct (command_run_load _ _ Hrun Hstatus)
    as (e & st & errata & Hload & -> & _).
  cbn [Session_List set_Session_List].
  apply (sort_and_adjust_transactions
           (all_strict (strict arguments || Use_Strict_Checking g))).
  assert (Hinit : strict_everywhere (strict arguments || Use_Strict_Checking g)
                    (LoadState_init (configured arguments g) file_path)).
  { apply (@LoadState_init_strict (configured arguments g) file_path).
    cbn. rewrite Hempty. constructor. }
  exact (proj2 (proj1 (@load_calls_strict _ _ _ _ _ Hinit Hload))).
Qed.

Lemma dispatch_sessions_in (sessions : list Ssn) (d : Dispatch) (p : nat * Ssn) :
  In p (d_assigned (dispatch_sessions sessions d)) ->
  In p (d_assigned d) \/ In (snd p) sessions.
Proof.
  unfold dispatch_sessions. revert d.
  induction sessions as [|ssn rest IH]; intros d; cbn [fold_left].
  - now left.
  - intros Hin. destruct (IH _ Hin) as [H|H]; [|right; now right].
    unfold dispatch_one in H.
    destruct (get_worker (d_calls d)) as [w|]; cbn [d_assigned] in H.
    + apply in_app_or in H. destruct H as [H|[H|[]]]; [now left|].
      right. left. now subst p.
    + now left.
Qed.

Lemma repeat_loop_in (count : nat) (sessions : list Ssn) (d : Dispatch)
    (p : nat * Ssn) :
  In p (d_assigned (repeat_loop count sessions d)) ->
  In p (d_assigned d) \/ In (snd p) sessions.
Proof.
  revert d. induction count as [|n IH]; intros d; cbn [repeat_loop].
  - now left.
  - intros Hin. destruct (IH _ Hin) as [H|H]; [|now right].
    now apply dispatch_sessions_in.
Qed.

(** X21. The scheduler never hands an empty session to a worker: after a
    run that began with a registry without empty sessions and ends with
    status 0, every session of the batch and every session assigned to a
    worker has at least one transaction, and every assigned session is one
    of the batch. *)
Theorem no_empty_session_is_assigned (arguments : Args) (g : Globals)
    (out : Outcome) :
  registry_ok g ->
  command_run arguments g = Ok out ->
  status_code out = 0 ->
  registry_ok (out_globals out) /\
  Forall
    (fun p => In (snd p) (Session_List (out_globals out)) /\
              _transactions (snd p) <> [])
    (assigned out).
Proof.
  intros Hok Hrun Hstatus.
  destruct (command_run_load _ _ Hrun Hstatus)
    as (e & st & errata & Hload & Hout & Hassigned).
  assert (Hreg : registry_ok (out_globals out)).
  { rewrite Hout. unfold registry_ok. cbn [Session_List set_Session_List].
    apply (sort_and_adjust_transactions (fun txns => txns <> [])).
    exact (@load_calls_registry _ _ _ _ Hload Hok). }
  split; [exact Hreg|].
  apply Forall_forall. intros p Hp. rewrite Hassigned in Hp.
  apply repeat_loop_in in Hp. destruct Hp as [[]|Hin].
  split; [exact Hin|].
  unfold registry_ok in Hreg. rewrite Forall_forall in Hreg. now apply Hreg.
Qed.

End Client.

(* ================================================================== *)
(** * The properties at concrete inputs *)

Lemma normalized_min_start_is_zero_witness :
  example_batch <> [] /\
  Forall (fun s => 0 <= _start s < 2 ^ 64) example_batch /\
  front_start (fst (fst (sort_and_adjust example_batch))) = 0.
Proof.
  assert (H1 : example_batch <> []) by discriminate.
  assert (H2 : Forall (fun s => 0 <= _start s < 2 ^ 64) example_batch)
    by (repeat constructor; cbn; lia).
  split; [exact H1|]. split; [exact H2|].
  destruct (normalized_min_start_is_zero H1 H2)
    as (earliest & _ & _ & _ & _ & H & _).
  exact H.
Defined.


Lemma rate_divisor_zero_unguarded_witness :
  same_start_batch <> [] /\
  Forall (fun s => _start s = 5000) same_start_batch /\
  Text.atoi "50" <> 0 /\
  rate_divisor (Text.atoi "50") (fst (fst (sort_and_adjust same_start_batch)))
  = 0 /\
  not_finite
    (compute_rate_multiplier ["50"%string]
       (fst (fst (sort_and_adjust same_start_batch)))
       (snd (fst (sort_and_adjust same_start_batch)))) = true /\
  compute_rate_multiplier ["50"%string]
    (fst (fst (sort_and_adjust same_start_batch)))
    (snd (fst (sort_and_adjust same_start_batch)))
  = S754_infinity false.
Proof.
  assert (H1 : same_start_batch <> []) by discriminate.
  assert (H2 : 0 <= 5000 < 2 ^ 64) by lia.
  assert (H3 : Forall (fun s => _start s = 5000) same_start_batch)
    by (repeat constructor).
  assert (H4 : Text.atoi "50" <> 0) by (vm_compute; discriminate).
  destruct (rate_divisor_zero_unguarded "50" H1 H2 H3 H4)
    as (_ & Hdiv & Hrm & Hinf).
  split; [exact H1|]. split; [exact H3|]. split; [exact H4|].
  split; [exact Hdiv|]. split; [exact Hinf|].
  rewrite Hrm. vm_compute. reflexivity.
Defined.

Lemma ssn_open_protocol_scan_witness :
  get tls_h2_node YAML_SSN_PROTOCOL_KEY
  = Some (Sequence 9 [Scalar 9 "tls"; Scalar 9 "h2"]) /\
  exists ssn : Ssn,
    Handler._ssn
      (snd (ssn_open lower decimal_value tls_h2_node
              (ClientReplayFileHandler_new Globals_init "replay/one.yaml")))
    = Some ssn /\
    is_tls ssn = true /\ is_h2 ssn = false /\
    _client_sni ssn = "example.com"%string.
Proof.
  assert (H : get tls_h2_node YAML_SSN_PROTOCOL_KEY
              = Some (Sequence 9 [Scalar 9 "tls"; Scalar 9 "h2"]))
    by reflexivity.
  split; [exact H|].
  destruct (ssn_open_protocol_scan lower decimal_value tls_h2_node
              (ClientReplayFileHandler_new Globals_init "replay/one.yaml") H)
    as ((ssn & Hssn & _ & Hfirst) & _).
  destruct (Hfirst [] (Scalar 9 "tls") [Scalar 9 "h2"]
              eq_refl eq_refl eq_refl) as (Htls & Hh2 & Hsni & _).
  exists ssn. split; [exact Hssn|]. split; [exact Htls|]. split; [exact Hh2|].
  exact (Hsni (Map 10 [("client-sni"%string, Scalar 10 "Example.COM")])
           10 "Example.COM"%string eq_refl eq_refl).
Defined.

Lemma registry_sessions_have_transactions_witness :
  exists (e : Errata.t) (st' : LoadState),
    load_calls lower decimal_value load_map key_of example_calls
      (LoadState_init Globals_init one_file) = Ok (e, st') /\
    List.length (Session_List (globals st')) = 1%nat /\
    registry_ok (globals st').
Proof.
  destruct (load_calls lower decimal_value load_map key_of example_calls
              (LoadState_init Globals_init one_file))
    as [[e st']| |] eqn:E.
  - exists e, st'. split; [reflexivity|]. split.
    + vm_compute in E. inversion E. reflexivity.
    + exact (proj1 (@registry_sessions_have_transactions
                      lower decimal_value load_map key_of example_calls
                      (LoadState_init Globals_init one_file) st' e
                      (Forall_nil _) E)).
  - vm_compute in E. discriminate E.
  - vm_compute in E. discriminate E.
Defined.

Lemma TF_Client_round_robin_witness :
  Target two_three <> [] /\
  Target_Https two_three <> [] /\
  exists rans : list Ran,
    TF_Client connect_ok run_ok two_three five_plain = Ok rans /\
    map ran_target_index rans = [0; 1; 0; 1; 0] /\
    map ran_target_https_index rans = [0; 1; 2; 0; 1].
Proof.
  assert (H1 : Target two_three <> []) by discriminate.
  assert (H2 : Target_Https two_three <> []) by discriminate.
  split; [exact H1|]. split; [exact H2|].
  destruct (@TF_Client_round_robin connect_ok run_ok two_three five_plain H1 H2)
    as (rans & Hrun & _ & _ & _ & _ & Hcycle).
  exists rans. split; [exact Hrun|].
  exact (Hcycle eq_refl eq_refl eq_refl).
Defined.

Lemma h2_session_dispatch_witness :
  is_h2 h2_ssn = true /\
  snd (Run_Session connect_ok run_ok two_three_no_proxy h2_ssn (1, 80) (1, 443))
  = [] /\
  snd (Run_Session connect_ok run_ok two_three h2_ssn (1, 80) (1, 443))
  = [Connect H2Session (1, 443);
     RunTransactions H2Session (_transactions h2_ssn) (1, 443)].
Proof.
  assert (H : is_h2 h2_ssn = true) by reflexivity.
  split; [exact H|]. split.
  - destruct (@h2_session_dispatch connect_ok run_ok two_three_no_proxy
                h2_ssn (1, 80) (1, 443) H) as (Hskip & _).
    destruct (Hskip eq_refl) as (-> & _). reflexivity.
  - destruct (@h2_session_dispatch connect_ok run_ok two_three
                h2_ssn (1, 80) (1, 443) H) as (_ & Hrun).
    rewrite (Hrun eq_refl). reflexivity.
Defined.

Lemma worker_failure_is_not_fatal_witness :
  exists out : Outcome,
    command_run lower decimal_value load_map key_of resolve_one load_example
      one_file no_worker run_arguments Globals_init = Ok out /\
    (status_code out = 0 \/ status_code out = 1) /\
    worker_calls out = 1%nat.
Proof.
  destruct (command_run lower decimal_value load_map key_of resolve_one
              load_example one_file no_worker run_arguments Globals_init)
    as [out| |] eqn:E.
  - exists out. split; [reflexivity|].
    destruct (proj2 (worker_failure_is_not_fatal lower decimal_value load_map
                       key_of resolve_one load_example one_file no_worker)
                run_arguments Globals_init out E) as (H01 & _ & Hcalls).
    split; [exact H01|].
    vm_compute in E. injection E as Hout. subst out.
    rewrite (Hcalls eq_refl). reflexivity.
  - vm_compute in E. discriminate E.
  - vm_compute in E. discriminate E.
Defined.

(* ================================================================== *)
(** * Where the code departs from the description *)

(** Against C1: on a worker with 2 HTTP and 3 HTTPS targets, five plain
    sessions with a TLS session after each of the first four all use HTTP
    target 0. *)
Lemma plain_targets_follow_interleaving :
  exists rans : list Ran,
    TF_Client connect_ok run_ok two_three interleaved = Ok rans /\
    plain_target_indices rans = [0; 0; 0; 0; 0] /\
    plain_target_indices rans <> [0; 1; 0; 1; 0].
Proof.
  eexists. split; [vm_compute; reflexivity|].
  split; [reflexivity | discriminate].
Qed.

(** Against C3: no worker is obtained for the one session of the batch, and
    [command_run] ends with status 0, after an error diagnostic. *)
Lemma no_worker_exit_status_zero :
  exists out : Outcome,
    command_run lower decimal_value load_map key_of resolve_one load_example
      one_file no_worker run_arguments Globals_init = Ok out /\
    no_worker 0%nat = None /\
    worker_calls out = 1%nat /\
    assigned out = [] /\
    Errata.has_error (out_errata out) = true /\
    status_code out = 0 /\
    ~ status_code out <> 0.
Proof.
  eexists. split; [vm_compute; reflexivity|].
  cbn. repeat split. intros H. now apply H.
Qed.

(** Against C4: while a proxy is expected on the path, an HTTP/2 session
    is not skipped: the HTTP/2 runner connects to the HTTPS target and runs
    the transactions. *)
Lemma h2_session_runs_when_proxy_expected :
  Use_Proxy_Request_Directives two_three = false /\
  is_h2 h2_ssn = true /\
  snd (Run_Session connect_ok run_ok two_three h2_ssn (1, 80) (1, 443))
  = [Connect H2Session (1, 443);
     RunTransactions H2Session (_transactions h2_ssn) (1, 443)] /\
  snd (Run_Session connect_ok run_ok two_three h2_ssn (1, 80) (1, 443)) <> [].
Proof.
  repeat split. discriminate.
Qed.

(** On C2: after a [txn_open] that fails its validation the mutex is not
    held, and the [txn_close] that follows unlocks it all the same: a
    release with no acquisition, also while another thread holds the mutex
    for a transaction of its own. *)
Lemma txn_close_unlocks_after_failed_open :
  (exists (e : Errata.t) (st : LoadState),
      load_calls lower decimal_value load_map key_of
        (firstn 2 failed_open_calls) (LoadState_init Globals_init one_file)
      = Ok (e, st) /\
      Errata.is_ok e = false /\
      LoadMutex (globals st) = None) /\
  load_calls lower decimal_value load_map key_of failed_open_calls
    (LoadState_init Globals_init one_file)
  = Undefined Unlock_not_owner /\
  (exists (e : Errata.t) (st : LoadState),
      load_calls lower decimal_value load_map key_of
        (firstn 4 failed_open_calls_2) (LoadState_init Globals_init one_file)
      = Ok (e, st) /\
      LoadMutex (globals st) = Some 1%nat) /\
  load_calls lower decimal_value load_map key_of failed_open_calls_2
    (LoadState_init Globals_init one_file)
  = Undefined Unlock_not_owner.
Proof.
  split; [|split; [|split]].
  - eexists. eexists. split; [vm_compute; reflexivity|]. split; reflexivity.
  - vm_compute. reflexivity.
  - eexists. eexists. split; [vm_compute; reflexivity|]. reflexivity.
  - vm_compute. reflexivity.
Qed.

(** On C7: in client mode the loader reports an error for the request node,
    [client_request] returns an empty errata, while [proxy_request] in
    no-proxy mode and [proxy_response] in client mode return what the loader
    reported. *)
Lemma client_request_drops_load_errata :
  let h := ClientReplayFileHandler_new Globals_init "replay/one.yaml" in
  Use_Proxy_Request_Directives Globals_init = false /\
  fst (load_map (_req (Handler._txn h)) scalar_request_node)
  = [(Errata.S_ERROR, "Message node is not a map."%string)] /\
  fst (client_request load_map scalar_request_node Globals_init h)
  = Errata.empty /\
  Errata.is_ok (fst (client_request load_map scalar_request_node Globals_init h))
  = true /\
  fst (proxy_request load_map scalar_request_node two_three_no_proxy h)
  = [(Errata.S_ERROR, "Message node is not a map."%string)] /\
  fst (proxy_response load_map scalar_request_node Globals_init h)
  = [(Errata.S_ERROR, "Message node is not a map."%string)].
Proof.
  cbv zeta. repeat split.
Qed.

(* ================================================================== *)
(** * The further properties at concrete inputs *)

Lemma registry_is_append_only_witness :
  exists (e : Errata.t) (st' : LoadState) (added : list Ssn),
    load_calls lower decimal_value load_map key_of example_calls
      (LoadState_init Globals_init one_file) = Ok (e, st') /\
    Session_List (globals st') = [] ++ added /\
    (List.length added <= 2)%nat.
Proof.
  destruct (load_calls lower decimal_value load_map key_of example_calls
              (LoadState_init Globals_init one_file))
    as [[e st']| |] eqn:E.
  - destruct (@registry_is_append_only lower decimal_value load_map key_of
                example_calls (LoadState_init Globals_init one_file) st' e E)
      as (added & Hadded & Hlen).
    exists e, st', added. split; [reflexivity|].
    split; [exact Hadded | exact Hlen].
  - vm_compute in E. discriminate E.
  - vm_compute in E. discriminate E.
Defined.

Lemma txn_close_filters_by_key_witness :
  LoadMutex locked_with_keys = Some 0%nat /\
  Handler._ssn loaded_handler = Some plain_ssn /\
  exists (h' : ClientReplayFileHandler) (ssn' : Ssn),
    txn_close key_of 0 locked_with_keys loaded_handler
    = Ok (Errata.empty, set_LoadMutex locked_with_keys None, h') /\
    Handler._ssn h' = Some ssn' /\
    _transactions ssn'
    = _transactions plain_ssn ++ [Handler._txn loaded_handler].
Proof.
  assert (H1 : LoadMutex locked_with_keys = Some 0%nat) by reflexivity.
  assert (H2 : Handler._ssn loaded_handler = Some plain_ssn) by reflexivity.
  split; [exact H1|]. split; [exact H2|].
  destruct (@txn_close_filters_by_key key_of 0%nat locked_with_keys
              loaded_handler plain_ssn H1 H2)
    as (h' & ssn' & Hclose & _ & _ & Hssn & _ & Hkept & _).
  exists h', ssn'. split; [exact Hclose|]. split; [exact Hssn|].
  apply Hkept. right. cbn. now left.
Defined.

Lemma strict_flag_is_threaded_witness :
  exists (e : Errata.t) (st' : LoadState),
    load_calls lower decimal_value load_map key_of example_calls
      (LoadState_init Globals_init one_file) = Ok (e, st') /\
    strict_everywhere false st'.
Proof.
  destruct (load_calls lower decimal_value load_map key_of example_calls
              (LoadState_init Globals_init one_file))
    as [[e st']| |] eqn:E.
  - exists e, st'. split; [reflexivity|].
    exact (@strict_flag_is_threaded lower decimal_value load_map key_of
             example_calls Globals_init one_file st' e (Forall_nil _) E).
  - vm_compute in E. discriminate E.
  - vm_compute in E. discriminate E.
Defined.

Lemma load_lock_transitions_witness :
  exists (e : Errata.t) (g' : Globals) (h' : ClientReplayFileHandler),
    handler_call lower decimal_value load_map key_of 0
      (Call_txn_open good_txn_node) Globals_init
      (ClientReplayFileHandler_new Globals_init "replay/one.yaml")
    = Ok (e, g', h') /\
    ((e <> Errata.empty /\ g' = Globals_init) \/
     (e = Errata.empty /\ LoadMutex Globals_init = None /\
      LoadMutex g' = Some 0%nat)).
Proof.
  eexists. eexists. eexists. split; [reflexivity|].
  exact (@load_lock_transitions lower decimal_value load_map key_of 0%nat
           (Call_txn_open good_txn_node) Globals_init _
           (ClientReplayFileHandler_new Globals_init "replay/one.yaml") _ _
           eq_refl).
Defined.

Lemma TF_Client_needs_both_targets_witness :
  five_plain <> [] /\
  (exists rans : list Ran,
      TF_Client connect_ok run_ok two_three five_plain = Ok rans /\
      List.length rans = 5%nat) /\
  TF_Client connect_ok run_ok Globals_init five_plain
  = Undefined Index_out_of_range.
Proof.
  assert (H : five_plain <> []) by discriminate.
  split; [exact H|]. split.
  - apply (proj1 (@TF_Client_needs_both_targets connect_ok run_ok two_three
                    five_plain H)).
    split; discriminate.
  - apply (proj2 (@TF_Client_needs_both_targets connect_ok run_ok Globals_init
                    five_plain H)).
    now left.
Defined.

Lemma command_run_status_witness :
  exists out : Outcome,
    command_run lower decimal_value load_map key_of resolve_one load_example
      one_file next_worker run_arguments Globals_init = Ok out /\
    status_code out = 0.
Proof.
  destruct (command_run lower decimal_value load_map key_of resolve_one
              load_example one_file next_worker run_arguments Globals_init)
    as [out| |] eqn:E.
  - exists out. split; [reflexivity|].
    apply (proj1 (@command_run_status lower decimal_value load_map key_of
                    resolve_one load_example one_file next_worker
                    run_arguments Globals_init out E)).
    repeat split. cbn. lia.
  - vm_compute in E. discriminate E.
  - vm_compute in E. discriminate E.
Defined.

Lemma dispatch_totals_witness :
  exists out : Outcome,
    command_run lower decimal_value load_map key_of resolve_one load_example
      one_file next_worker run_arguments Globals_init = Ok out /\
    status_code out = 0 /\
    out_n_ssn out = 1 /\ out_n_txn out = 1 /\ worker_calls out = 1%nat.
Proof.
  destruct (command_run lower decimal_value load_map key_of resolve_one
              load_example one_file next_worker run_arguments Globals_init)
    as [out| |] eqn:E.
  - assert (Hstatus : status_code out = 0)
      by (vm_compute in E; injection E as <-; reflexivity).
    destruct (@dispatch_totals lower decimal_value load_map key_of
                resolve_one load_example one_file next_worker
                run_arguments Globals_init out E Hstatus)
      as (Hn & Ht & _ & Hc & _).
    exists out. split; [reflexivity|]. split; [exact Hstatus|].
    rewrite Hn, Ht, Hc.
    vm_compute in E. injection E as <-. repeat split.
  - vm_compute in E. discriminate E.
  - vm_compute in E. discriminate E.
Defined.

Lemma every_session_is_assigned_witness :
  (forall k : nat, next_worker k <> None) /\
  exists out : Outcome,
    command_run lower decimal_value load_map key_of resolve_one load_example
      one_file next_worker run_arguments Globals_init = Ok out /\
    status_code out = 0 /\
    map snd (assigned out) = Session_List (out_globals out) /\
    map fst (assigned out) = [0%nat].
Proof.
  assert (Hall : forall k : nat, next_worker k <> None) by discriminate.
  split; [exact Hall|].
  destruct (command_run lower decimal_value load_map key_of resolve_one
              load_example one_file next_worker run_arguments Globals_init)
    as [out| |] eqn:E.
  - assert (Hstatus : status_code out = 0)
      by (vm_compute in E; injection E as <-; reflexivity).
    destruct (@every_session_is_assigned lower decimal_value load_map key_of
                resolve_one load_example one_file next_worker
                run_arguments Globals_init out Hall E Hstatus)
      as (Hsnd & _).
    exists out. split; [reflexivity|]. split; [exact Hstatus|].
    split.
    + rewrite Hsnd. vm_compute in E. injection E as <-. reflexivity.
    + vm_compute in E. injection E as <-. reflexivity.
  - vm_compute in E. discriminate E.
  - vm_compute in E. discriminate E.
Defined.

Lemma empty_batch_is_not_an_error_witness :
  exists out : Outcome,
    command_run lower decimal_value load_map key_of resolve_one load_nothing
      one_file no_worker run_arguments Globals_init = Ok out /\
    status_code out = 0 /\
    Session_List (out_globals out) = [] /\
    worker_calls out = 0%nat /\ rate_multiplier out = Machine.f_zero.
Proof.
  destruct (command_run lower decimal_value load_map key_of resolve_one
              load_nothing one_file no_worker run_arguments Globals_init)
    as [out| |] eqn:E.
  - assert (Hstatus : status_code out = 0)
      by (vm_compute in E; injection E as <-; reflexivity).
    assert (Hempty : Session_List (out_globals out) = [])
      by (vm_compute in E; injection E as <-; reflexivity).
    destruct (@empty_batch_is_not_an_error lower decimal_value load_map key_of
                resolve_one load_nothing one_file no_worker
                run_arguments Globals_init out E Hstatus Hempty)
      as (Hc & _ & _ & _ & _ & _ & Hrm).
    exists out. split; [reflexivity|]. now repeat split.
  - vm_compute in E. discriminate E.
  - vm_compute in E. discriminate E.
Defined.

Lemma nonpositive_repeat_replays_nothing_witness :
  repeat_count_of repeat_zero_arguments <= 0 /\
  exists out : Outcome,
    command_run lower decimal_value load_map key_of resolve_one load_example
      one_file next_worker repeat_zero_arguments Globals_init = Ok out /\
    status_code out = 0 /\
    List.length (Session_List (out_globals out)) = 1%nat /\
    worker_calls out = 0%nat /\ assigned out = [].
Proof.
  assert (Hrepeat : repeat_count_of repeat_zero_arguments <= 0)
    by (vm_compute; discriminate).
  split; [exact Hrepeat|].
  destruct (command_run lower decimal_value load_map key_of resolve_one
              load_example one_file next_worker repeat_zero_arguments
              Globals_init)
    as [out| |] eqn:E.
  - assert (Hstatus : status_code out = 0)
      by (vm_compute in E; injection E as <-; reflexivity).
    destruct (@nonpositive_repeat_replays_nothing lower decimal_value load_map
                key_of resolve_one load_example one_file next_worker
                repeat_zero_arguments Globals_init out E Hstatus Hrepeat)
      as (Hc & Ha & _).
    exists out. split; [reflexivity|]. split; [exact Hstatus|].
    split; [|now split].
    vm_compute in E. injection E as <-. reflexivity.
  - vm_compute in E. discriminate E.
  - vm_compute in E. discriminate E.
Defined.

Lemma no_rate_no_pacing_witness :
  nexttime (compute_rate_multiplier ["0"%string] example_batch 100)
    11000000 1700000000000000 = Some 1700000000000000.
Proof.
  apply (@no_rate_no_pacing ["0"%string] example_batch 100
           11000000 1700000000000000).
  - right. reflexivity.
  - lia.
  - lia.
Defined.

Lemma equal_starts_schedule_undefined_witness :
  same_start_batch <> [] /\
  Forall (fun s => _start s = 5000) same_start_batch /\
  Text.atoi "50" <> 0 /\
  Forall
    (fun s =>
       nexttime
         (compute_rate_multiplier ["50"%string]
            (fst (fst (sort_and_adjust same_start_batch)))
            (snd (fst (sort_and_adjust same_start_batch))))
         (_start s) 1700000000000000 = None)
    (fst (fst (sort_and_adjust same_start_batch))).
Proof.
  assert (H1 : same_start_batch <> []) by discriminate.
  assert (H2 : 0 <= 5000 < 2 ^ 64) by lia.
  assert (H3 : Forall (fun s => _start s = 5000) same_start_batch)
    by (repeat constructor).
  assert (H4 : Text.atoi "50" <> 0) by (vm_compute; discriminate).
  split; [exact H1|]. split; [exact H3|]. split; [exact H4|].
  exact (@equal_starts_schedule_undefined "50" same_start_batch 5000
           1700000000000000 H1 H2 H3 H4).
Defined.

Lemma sleep_is_bounded_witness :
  usleep_argument (sleep_limit_of run_arguments) 2000000 400000 = Some 500000 /\
  0 <= 500000 <= sleep_limit_of run_arguments /\
  500000 <= 2000000 - 400000.
Proof.
  assert (H : usleep_argument (sleep_limit_of run_arguments) 2000000 400000
              = Some 500000) by reflexivity.
  split; [exact H|].
  destruct (@sleep_is_bounded run_arguments 2000000 400000 500000
              ltac:(lia) ltac:(lia) H) as (Hd & Hleft & _).
  split; [exact Hd | exact Hleft].
Defined.

Lemma directives_by_mode_witness :
  Use_Proxy_Request_Directives Globals_init = false /\
  proxy_request load_map request_node Globals_init loaded_handler
  = (Errata.empty, loaded_handler) /\
  server_response load_map request_node Globals_init loaded_handler
  = (Errata.empty, loaded_handler).
Proof.
  assert (H : Use_Proxy_Request_Directives Globals_init = false) by reflexivity.
  split; [exact H|].
  destruct (proj1 (@directives_by_mode load_map request_node Globals_init
                     loaded_handler) H) as (H1 & H2 & _).
  split; [exact H1 | exact H2].
Defined.

Lemma command_run_configures_globals_witness :
  exists out : Outcome,
    command_run lower decimal_value load_map key_of resolve_one load_example
      one_file next_worker run_arguments Globals_init = Ok out /\
    status_code out = 0 /\
    Target (out_globals out) = [(2130706433, 8080)] /\
    Use_Proxy_Request_Directives (out_globals out) = false.
Proof.
  destruct (command_run lower decimal_value load_map key_of resolve_one
              load_example one_file next_worker run_arguments Globals_init)
    as [out| |] eqn:E.
  - assert (Hstatus : status_code out = 0)
      by (vm_compute in E; injection E as <-; reflexivity).
    destruct (@command_run_configures_globals lower decimal_value load_map
                key_of resolve_one load_example one_file next_worker
                run_arguments Globals_init out E Hstatus)
      as (_ & Hproxy & _ & Htarget & _).
    exists out. split; [reflexivity|]. split; [exact Hstatus|].
    split; [exact Htarget | exact Hproxy].
  - vm_compute in E. discriminate E.
  - vm_compute in E. discriminate E.
Defined.

Lemma strict_reaches_every_transaction_witness :
  Session_List Globals_init = [] /\
  exists out : Outcome,
    command_run lower decimal_value load_map key_of resolve_one load_example
      one_file next_worker run_arguments Globals_init = Ok out /\
    status_code out = 0 /\
    Forall (fun ssn => all_strict false (_transactions ssn))
      (Session_List (out_globals out)).
Proof.
  assert (Hempty : Session_List Globals_init = []) by reflexivity.
  split; [exact Hempty|].
  destruct (command_run lower decimal_value load_map key_of resolve_one
              load_example one_file next_worker run_arguments Globals_init)
    as [out| |] eqn:E.
  - assert (Hstatus : status_code out = 0)
      by (vm_compute in E; injection E as <-; reflexivity).
    exists out. split; [reflexivity|]. split; [exact Hstatus|].
    exact (@strict_reaches_every_transaction lower decimal_value load_map
             key_of resolve_one load_example one_file next_worker
             run_arguments Globals_init out Hempty E Hstatus).
  - vm_compute in E. discriminate E.
  - vm_compute in E. discriminate E.
Defined.

Lemma no_empty_session_is_assigned_witness :
  registry_ok Globals_init /\
  exists out : Outcome,
    command_run lower decimal_value load_map key_of resolve_one load_example
      one_file next_worker run_arguments Globals_init = Ok out /\
    status_code out = 0 /\
    List.length (assigned out) = 1%nat /\
    Forall (fun p => _transactions (snd p) <> []) (assigned out).
Proof.
  assert (Hok : registry_ok Globals_init) by constructor.
  split; [exact Hok|].
  destruct (command_run lower decimal_value load_map key_of resolve_one
              load_example one_file next_worker run_arguments Globals_init)
    as [out| |] eqn:E.
  - assert (Hstatus : status_code out = 0)
      by (vm_compute in E; injection E as <-; reflexivity).
    destruct (@no_empty_session_is_assigned lower decimal_value load_map
                key_of resolve_one load_example one_file next_worker
                run_arguments Globals_init out Hok E Hstatus)
      as (_ & Hall).
    exists out. split; [reflexivity|]. split; [exact Hstatus|]. split.
    + vm_compute in E. injection E as <-. reflexivity.
    + eapply Forall_impl; [|exact Hall]. cbv beta. intros p Hp. exact (proj2 Hp).
  - vm_compute in E. discriminate E.
  - vm_compute in E. discriminate E.
Defined.
